(** * Handwriting-Tesseract-OCR: the backend of [backend/main.py]

    A shallow embedding of the request pipeline (preprocessing, region
    detection, text extraction, annotation, response assembly) and the
    properties its specification states about it.

    Python values are modelled as follows.
    - [str] is a sequence of Unicode code points ([pystr]); [len] counts
      code points and [strip] removes the characters of [str.isspace].
    - [int] is [Z]; [float] is the kernel's binary64 ([PrimFloat.float]),
      so [2000 / width], [width * scale] and [int(...)] are computed with
      the rounding of the hardware.
    - A raised exception is the [Raise] case of [result]; [try/except
      Exception] is [try_except], which lets [SystemExit] and
      [KeyboardInterrupt] through.
    - [np.ndarray] is a shape and a flat pixel buffer; the arrays that
      [cv2] mutates in place live in a store.
    - OpenCV, Tesseract and the few other library calls are fields of
      the record [libs]; what the pipeline relies on is stated as laws.
    - [print] calls, CORS and the root endpoint are left out. *)

From Stdlib Require Import ZArith NArith List String Ascii Uint63 Floats Lia Bool.
From stdpp Require Import base option list strings gmap.

Local Open Scope Z_scope.

(** ** Python strings *)

Module PyStr.

Definition pychar := N.
Definition pystr := list pychar.

(** An ASCII literal of the source as a [pystr]. *)
Fixpoint lit (s : string) : pystr :=
  match s with
  | EmptyString => []
  | String c s' => N_of_ascii c :: lit s'
  end.

(** [str.isspace] for one character: the code points CPython's
    [_PyUnicode_IsWhitespace] accepts. *)
Definition isspace (c : pychar) : bool :=
  ((9 <=? c) && (c <=? 13) || (28 <=? c) && (c <=? 32)
   || (c =? 133) || (c =? 160) || (c =? 5760)
   || (8192 <=? c) && (c <=? 8202)
   || (c =? 8232) || (c =? 8233) || (c =? 8239) || (c =? 8287)
   || (c =? 12288))%N.

Fixpoint lstrip (s : pystr) : pystr :=
  match s with
  | [] => []
  | c :: s' => if isspace c then lstrip s' else s
  end.

Definition rstrip (s : pystr) : pystr := rev (lstrip (rev s)).

(** [s.strip()] *)
Definition strip (s : pystr) : pystr := rstrip (lstrip s).

(** [len(s)] *)
Definition len {A} (l : list A) : Z := Z.of_nat (length l).

(** Truth value of a sequence: [if text], [if text_boxes]. *)
Definition truthy {A} (l : list A) : bool :=
  match l with [] => false | _ => true end.

(** Decimal digits of a natural number, as [f"{n}"] prints them. *)
Fixpoint digits_fuel (fuel : nat) (n : N) (acc : pystr) : pystr :=
  match fuel with
  | O => acc
  | S fuel' =>
      let acc' := (48 + n mod 10)%N :: acc in
      if (n <? 10)%N then acc' else digits_fuel fuel' (n / 10)%N acc'
  end.

Definition str_of_Z (z : Z) : pystr :=
  let n := Z.to_N (Z.abs z) in
  let ds := digits_fuel (S (N.to_nat (N.log2 n))) n [] in
  if z <? 0 then 45%N :: ds else ds.

End PyStr.
Export PyStr.

(** ** Exceptions *)

Module Exc.

(** The exceptions the pipeline can meet.  [HTTPException] is FastAPI's;
    [LibError] stands for the exception classes of the libraries
    ([cv2.error], [TesseractError], [AttributeError], ...).  These and
    the built-in errors are subclasses of Python's [Exception];
    [SystemExit] and [KeyboardInterrupt] derive from [BaseException]
    only. *)
Inductive exn : Type :=
| HTTPException (status_code : Z) (detail : pystr)
| ValueError
| ZeroDivisionError
| OverflowError
| IndexError
| KeyError
| LibError (msg : pystr)
| SystemExit (code : pystr)
| KeyboardInterrupt.

(** [isinstance(e, Exception)] *)
Definition is_exception (e : exn) : bool :=
  match e with
  | SystemExit _ | KeyboardInterrupt => false
  | _ => true
  end.

Inductive result (A : Type) : Type :=
| Ok (a : A)
| Raise (e : exn).
Arguments Ok {A} a.
Arguments Raise {A} e.

Definition bind {A B} (m : result A) (k : A -> result B) : result B :=
  match m with
  | Ok a => k a
  | Raise e => Raise e
  end.

(** [try: body / except Exception as e: handler e].  The handler sees
    the instances of [Exception]; any other exception leaves the
    statement as it is. *)
Definition try_except {A} (body : result A) (handler : exn -> result A) : result A :=
  match body with
  | Ok a => Ok a
  | Raise e => if is_exception e then handler e else Raise e
  end.

Definition rmap {A B} (f : A -> B) (m : result A) : result B :=
  bind m (fun a => Ok (f a)).

(** [l[i]] for a non-negative index. *)
Definition index {A} (l : list A) (i : nat) : result A :=
  match l !! i with
  | Some a => Ok a
  | None => Raise IndexError
  end.

End Exc.
Export Exc.

Declare Scope py_scope.
Delimit Scope py_scope with py.
Notation "x <- m ;; k" := (bind m (fun x => k))
  (at level 100, m at next level, right associativity) : py_scope.
Local Open Scope py_scope.

(** ** Python floats *)

Module PyFloat.

(** [float(z)] for an [int] below [2^63] in magnitude: exact below
    [2^53], rounded to nearest-even above. *)
Definition float_of_Z (z : Z) : float :=
  if z <? 0 then PrimFloat.opp (PrimFloat.of_uint63 (Uint63.of_Z (- z)))
  else PrimFloat.of_uint63 (Uint63.of_Z z).

(** The integer nearest to a non-negative [z] that has at most 53
    significant bits, ties to even: the value of the double nearest
    to [z]. *)
Definition round53 (z : Z) : Z :=
  let d := Z.log2 z + 1 in
  if d <=? 53 then z
  else
    let sh := d - 53 in
    let q := z / 2 ^ sh in
    let r := z mod 2 ^ sh in
    let q' := match 2 * r ?= 2 ^ sh with
              | Lt => q
              | Gt => q + 1
              | Eq => if Z.even q then q else q + 1
              end in
    q' * 2 ^ sh.

(** [float(z)] for any [int], the float given by the integer it equals:
    [z] itself up to [2^53], the nearest double above, [OverflowError]
    when that would be [2^1024] or more. *)
Definition float_of_int (z : Z) : result Z :=
  let a := round53 (Z.abs z) in
  if 2 ^ 1024 <=? a then Raise OverflowError else Ok (Z.sgn z * a).

(** The integer a finite float truncates to, toward zero. *)
Definition trunc_SF (x : spec_float) : option Z :=
  match x with
  | S754_zero _ => Some 0
  | S754_finite s m e =>
      let a := if 0 <=? e then Z.shiftl (Zpos m) e else Z.shiftr (Zpos m) (- e) in
      Some (if s then - a else a)
  | S754_infinity _ | S754_nan => None
  end.

(** [int(x)]: truncation toward zero; [OverflowError] on an infinity and
    [ValueError] on a NaN. *)
Definition int_of_float (x : float) : result Z :=
  match Prim2SF x with
  | S754_infinity _ => Raise OverflowError
  | S754_nan => Raise ValueError
  | sf => match trunc_SF sf with Some z => Ok z | None => Raise ValueError end
  end.

(** [a / b] on two [int]s (true division). *)
Definition truediv (a b : Z) : result float :=
  if b =? 0 then Raise ZeroDivisionError
  else Ok (PrimFloat.div (float_of_Z a) (float_of_Z b)).

(** [n * x] with [n] an [int] and [x] a [float]. *)
Definition int_mul_float (n : Z) (x : float) : float :=
  PrimFloat.mul (float_of_Z n) x.

(** [rint]: the nearest integer, ties to even. *)
Definition rint (x : float) : float :=
  match Prim2SF x with
  | S754_finite s m e =>
      if 0 <=? e then x
      else
        let d := Z.shiftl 1 (- e) in
        let q := Zpos m / d in
        let r := Zpos m mod d in
        let q' := match 2 * r ?= d with
                  | Lt => q
                  | Gt => q + 1
                  | Eq => if Z.even q then q else q + 1
                  end in
        if s then PrimFloat.opp (float_of_Z q') else float_of_Z q'
  | _ => x
  end.

(** NumPy's [round(x, 2)] on a [float64]: scale by [10**2], [rint],
    scale back. *)
Definition np_round2 (x : float) : float :=
  PrimFloat.div (rint (PrimFloat.mul x (float_of_Z 100))) (float_of_Z 100).

(** [np.mean] of integer-valued floats given by their integer values:
    the sum is exact (below [2^53]) and is divided by the count. *)
Definition np_mean (l : list Z) : float :=
  PrimFloat.div (float_of_Z (fold_right Z.add 0 l)) (float_of_Z (len l)).

(** The numbers the response carries: an [int] or a [float]. *)
Inductive pynum : Type :=
| PyInt (z : Z)
| PyFloat (f : float).

(** [round(v, 2)] *)
Definition py_round2 (v : pynum) : pynum :=
  match v with
  | PyInt z => PyInt z
  | PyFloat f => PyFloat (np_round2 f)
  end.

End PyFloat.
Export PyFloat.

(** ** Arrays, boxes and the libraries *)

Module Model.

(** [np.ndarray]: the shape tuple and the flat buffer of pixel values.
    A grayscale image has shape [[h; w]], a BGR one [[h; w; 3]]. *)
Record ndarray : Type := mk_ndarray { shape : list Z; data : list Z }.

(** [np.sum(a == 0)]: how many elements are zero. *)
Definition count_zero (a : ndarray) : Z :=
  len (List.filter (fun p => p =? 0) (data a)).

(** [height, width = a.shape] *)
Definition unpack2 (s : list Z) : result (Z * Z) :=
  match s with
  | [a; b] => Ok (a, b)
  | _ => Raise ValueError
  end.

Definition bytes := list Byte.byte.
(** A colour scalar of OpenCV.  On the image [cv2.imdecode] returns the
    channels are, in order, blue, green and red. *)
Definition color := (Z * Z * Z)%type.
Definition blue_of (c : color) : Z := c.1.1.
Definition green_of (c : color) : Z := c.1.2.
Definition red_of (c : color) : Z := c.2.

(** One recognized word.  [tb_confidence] is [float(conf)] of a Python
    [int], an integer-valued float, kept as that integer (see
    [float_of_int]). *)
Record TextBox : Type := mk_TextBox {
  tb_text : pystr;
  tb_x : Z;
  tb_y : Z;
  tb_width : Z;
  tb_height : Z;
  tb_confidence : Z
}.

(** A cell of the dictionary [image_to_data] returns: an [int], a
    [float] or a [str]. *)
Inductive cell : Type :=
| CInt (z : Z)
| CFloat (f : float)
| CStr (s : pystr).

Definition ocr_dict := gmap string (list cell).

(** [data[key]] *)
Definition getitem (d : ocr_dict) (key : string) : result (list cell) :=
  match d !! key with
  | Some col => Ok col
  | None => Raise KeyError
  end.

(** [c.strip()]: only a [str] has the method. *)
Definition cell_strip (c : cell) : result pystr :=
  match c with
  | CStr s => Ok (strip s)
  | CInt _ | CFloat _ => Raise (LibError (lit "AttributeError"))
  end.

(** The calls into OpenCV, pytesseract and the Python library.  Each may
    raise.  [rectangle] and [putText] give the new contents of the array
    they draw on.  [int_str] is the built-in [int] on a [str]: the
    integer the text denotes, or nothing where [int] raises
    [ValueError]. *)
Record libs : Type := mk_libs {
  imdecode : bytes -> result (option ndarray);
  cvtColor_BGR2GRAY : ndarray -> result ndarray;
  resize_cubic : ndarray -> Z * Z -> result ndarray;
  fastNlMeansDenoising : ndarray -> Z -> Z -> Z -> result ndarray;
  clahe_apply : float -> Z * Z -> ndarray -> result ndarray;
  adaptiveThreshold_gaussian : ndarray -> Z -> Z -> Z -> result ndarray;
  GaussianBlur : ndarray -> Z * Z -> Z -> result ndarray;
  threshold_otsu : ndarray -> Z -> Z -> result ndarray;
  rectangle : ndarray -> Z * Z -> Z * Z -> color -> Z -> result ndarray;
  putText : ndarray -> pystr -> Z * Z -> float -> color -> Z -> result ndarray;
  imencode_jpg : ndarray -> result bytes;
  image_to_data : ndarray -> pystr -> pystr -> result ocr_dict;
  image_to_string : ndarray -> pystr -> pystr -> result pystr;
  b64encode : bytes -> pystr;
  exn_str : exn -> pystr;
  int_str : pystr -> option Z
}.

(** [int(c)]: an [int] is itself, a [float] is truncated, a [str] is
    parsed. *)
Definition py_int (L : libs) (c : cell) : result Z :=
  match c with
  | CInt z => Ok z
  | CFloat f => int_of_float f
  | CStr s => match int_str L s with
              | Some z => Ok z
              | None => Raise ValueError
              end
  end.

(** The arrays that are drawn on, by address. *)
Abbreviation loc := positive (only parsing).
Abbreviation store := (gmap positive ndarray) (only parsing).

(** Computations that read and write the store and may raise; the
    store survives a raise. *)
Definition heap (A : Type) : Type := store -> result A * store.

Definition hret {A} (a : A) : heap A := fun s => (Ok a, s).

Definition hbind {A B} (m : heap A) (k : A -> heap B) : heap B :=
  fun s => match m s with
           | (Ok a, s') => k a s'
           | (Raise e, s') => (Raise e, s')
           end.

Definition hlift {A} (r : result A) : heap A := fun s => (r, s).

(** The array at an address. *)
Definition load (l : loc) : heap ndarray :=
  fun s => match s !! l with
           | Some a => (Ok a, s)
           | None => (Raise (LibError (lit "dangling array")), s)
           end.

(** Overwrite the array at an address (an in-place update). *)
Definition overwrite (l : loc) (a : ndarray) : heap unit :=
  fun s => (Ok tt, <[l := a]> s).

(** A new array object with the given contents. *)
Definition alloc (a : ndarray) : heap loc :=
  fun s => let l := fresh (dom s) in (Ok l, <[l := a]> s).

End Model.
Export Model.

Notation "x <~ m ;; k" := (hbind m (fun x => k))
  (at level 100, m at next level, right associativity) : py_scope.

(** ** The functions of [main.py] *)

Module Main.
Section WithLibs.

Context (L : libs).

(** [preprocess_image] *)
Definition preprocess_image (image : ndarray) : result ndarray :=
  gray <- cvtColor_BGR2GRAY L image ;;
  hw <- unpack2 (shape gray) ;;
  let '(height, width) := hw in
  gray <- (if width <? 2000 then
             scale <- truediv 2000 width ;;
             new_width <- int_of_float (int_mul_float width scale) ;;
             new_height <- int_of_float (int_mul_float height scale) ;;
             resize_cubic L gray (new_width, new_height)
           else Ok gray) ;;
  denoised <- fastNlMeansDenoising L gray 10 7 21 ;;
  contrast <- clahe_apply L 2%float (8, 8) denoised ;;
  adaptive <- adaptiveThreshold_gaussian L contrast 255 11 2 ;;
  blur <- GaussianBlur L contrast (5, 5) 0 ;;
  otsu <- threshold_otsu L blur 0 255 ;;
  if count_zero adaptive <? count_zero otsu then Ok otsu else Ok adaptive.

(** A [for] loop that threads an accumulator and stops at a raise. *)
Fixpoint for_each {A S : Type} (body : S -> A -> result S) (l : list A) (s : S)
  : result S :=
  match l with
  | [] => Ok s
  | a :: l' => s' <- body s a ;; for_each body l' s'
  end.

(** The body of the loop of [detect_text_regions] at index [i]. *)
Definition detect_step (d : ocr_dict) (boxes : list TextBox) (i : nat)
  : result (list TextBox) :=
  conf <- (col <- getitem d "conf" ;; c <- index col i ;; py_int L c) ;;
  if 30 <? conf then
    text <- (col <- getitem d "text" ;; c <- index col i ;; cell_strip c) ;;
    if truthy text && (0 <? len text) then
      x <- (col <- getitem d "left" ;; c <- index col i ;; py_int L c) ;;
      y <- (col <- getitem d "top" ;; c <- index col i ;; py_int L c) ;;
      w <- (col <- getitem d "width" ;; c <- index col i ;; py_int L c) ;;
      h <- (col <- getitem d "height" ;; c <- index col i ;; py_int L c) ;;
      confidence <- float_of_int conf ;;
      Ok (boxes ++ [ {| tb_text := text; tb_x := x; tb_y := y;
                        tb_width := w; tb_height := h;
                        tb_confidence := confidence |} ])
    else Ok boxes
  else Ok boxes.

(** [detect_text_regions] *)
Definition detect_text_regions (image : ndarray) : result (list TextBox) :=
  processed <- preprocess_image image ;;
  try_except
    (d <- image_to_data L processed (lit "--oem 3 --psm 3") (lit "eng") ;;
     col <- getitem d "text" ;;
     let n_boxes := length col in
     for_each (detect_step d) (seq 0 n_boxes) [])
    (fun _ => Ok []).

(** The colour chosen for a box in [draw_bounding_boxes]: the tuple
    handed to [cv2.rectangle] and [cv2.putText]. *)
Definition box_color (box : TextBox) : color :=
  if 70 <? tb_confidence box then (0, 255, 0)
  else if 50 <? tb_confidence box then (255, 165, 0)
  else (0, 0, 255).

(** [f"{box['confidence']:.0f}%"] *)
Definition box_label (box : TextBox) : pystr :=
  str_of_Z (tb_confidence box) ++ lit "%".

(** The two drawing calls for one box, on the array at [r]. *)
Definition draw_box (r : loc) (box : TextBox) : heap unit :=
  let x := tb_x box in
  let y := tb_y box in
  let w := tb_width box in
  let h := tb_height box in
  let color := box_color box in
  a <~ load r ;;
  a1 <~ hlift (rectangle L a (x, y) (x + w, y + h) color 2) ;;
  _ <~ overwrite r a1 ;;
  a2 <~ hlift (putText L a1 (box_label box) (x, y - 5) 0.5%float color 1) ;;
  overwrite r a2.

Fixpoint draw_boxes (r : loc) (boxes : list TextBox) : heap unit :=
  match boxes with
  | [] => hret tt
  | box :: rest => _ <~ draw_box r box ;; draw_boxes r rest
  end.

(** [draw_bounding_boxes]: [image] is the address of the caller's
    array; the result is the address of the annotated one. *)
Definition draw_bounding_boxes (image : loc) (boxes : list TextBox) : heap loc :=
  a <~ load image ;;
  result_image <~ alloc a ;;
  _ <~ draw_boxes result_image boxes ;;
  hret result_image.

(** [extract_text] *)
Definition extract_text (image : ndarray) : result pystr :=
  processed <- preprocess_image image ;;
  try_except
    (text1 <- image_to_string L processed (lit "--oem 3 --psm 3") (lit "eng") ;;
     text2 <- image_to_string L processed (lit "--oem 3 --psm 6") (lit "eng") ;;
     if len (strip text1) <? len (strip text2) then Ok (strip text2)
     else Ok (strip text1))
    (fun _ => Ok []).

(** The ["data"] object of the success response. *)
Record ocr_data : Type := mk_ocr_data {
  text : pystr;
  average_confidence : pynum;
  rotation_angle : Z;
  text_boxes : list TextBox;
  processed_image : pystr;
  total_boxes : Z
}.

(** [JSONResponse({"success": ..., "data": ...})] *)
Record JSONResponse : Type := mk_JSONResponse {
  success : bool;
  rdata : ocr_data
}.

(** [process_ocr] on the bytes of the uploaded file. *)
Definition process_ocr (contents : bytes) : result JSONResponse :=
  try_except
    (decoded <- imdecode L contents ;;
     match decoded with
     | None => Raise (HTTPException 400 (lit "Invalid image file"))
     | Some image =>
         boxes <- detect_text_regions image ;;
         extracted_text <- extract_text image ;;
         let '(drawn, heap1) := draw_bounding_boxes 1%positive boxes {[ 1%positive := image ]} in
         image_with_boxes <- (r <- drawn ;; fst (load r heap1)) ;;
         buffer <- imencode_jpg L image_with_boxes ;;
         let image_base64 := b64encode L buffer in
         let avg_conf :=
           if truthy boxes then PyFloat (np_mean (map tb_confidence boxes))
           else PyInt 0 in
         Ok {| success := true;
               rdata := {|
                 text := if truthy extracted_text then extracted_text
                         else lit "Tidak dapat mendeteksi teks";
                 average_confidence := py_round2 avg_conf;
                 rotation_angle := 0;
                 text_boxes := boxes;
                 processed_image := lit "data:image/jpeg;base64," ++ image_base64;
                 total_boxes := len boxes |} |}
     end)
    (fun e => Raise (HTTPException 500 (lit "Processing error: " ++ exn_str L e))).

(** The status code FastAPI answers with: 200 for a returned response,
    the code of a raised [HTTPException], 500 for any other [Exception].
    ([SystemExit] and [KeyboardInterrupt] end the server; the value there
    is not used.) *)
Definition http_status {A} (r : result A) : Z :=
  match r with
  | Ok _ => 200
  | Raise (HTTPException code _) => code
  | Raise _ => 500
  end.

(** The ["detail"] of the error body, when the answer is an error. *)
Definition http_detail {A} (r : result A) : option pystr :=
  match r with
  | Raise (HTTPException _ detail) => Some detail
  | _ => None
  end.

End WithLibs.
End Main.
Export Main.

(** ** What the pipeline relies on from OpenCV *)

Module Laws.

(** A filter that answers, on a non-empty grayscale array, with an array
    of the same shape. *)
Definition keeps_shape (f : ndarray -> result ndarray) : Prop :=
  forall g h w, shape g = [h; w] -> 0 < h -> 0 < w ->
    exists r, f g = Ok r /\ shape r = [h; w].

(** The specification's assumption that the library calls succeed on a
    valid image, with the shapes OpenCV documents. *)
Record cv_laws (L : libs) : Prop := mk_cv_laws {
  law_cvtColor : forall img h w, shape img = [h; w; 3] -> 0 < h -> 0 < w ->
    exists g, cvtColor_BGR2GRAY L img = Ok g /\ shape g = [h; w];
  law_resize : forall g h w nw nh, shape g = [h; w] -> 0 < h -> 0 < w ->
    0 < nw -> 0 < nh ->
    exists r, resize_cubic L g (nw, nh) = Ok r /\ shape r = [nh; nw];
  law_denoise : keeps_shape (fun g => fastNlMeansDenoising L g 10 7 21);
  law_clahe : keeps_shape (clahe_apply L 2%float (8, 8));
  law_adaptive : keeps_shape (fun g => adaptiveThreshold_gaussian L g 255 11 2);
  law_blur : keeps_shape (fun g => GaussianBlur L g (5, 5) 0);
  law_otsu : keeps_shape (fun g => threshold_otsu L g 0 255)
}.

(** A decoded colour image: three channels and dimensions that fit the
    C [int] of an OpenCV matrix. *)
Definition decoded (img : ndarray) (h w : Z) : Prop :=
  shape img = [h; w; 3] /\ 0 < h < 2 ^ 31 /\ 0 < w < 2 ^ 31.

(** [L] with another resize routine. *)
Definition set_resize (L : libs) (f : ndarray -> Z * Z -> result ndarray) : libs :=
  {| imdecode := imdecode L;
     cvtColor_BGR2GRAY := cvtColor_BGR2GRAY L;
     resize_cubic := f;
     fastNlMeansDenoising := fastNlMeansDenoising L;
     clahe_apply := clahe_apply L;
     adaptiveThreshold_gaussian := adaptiveThreshold_gaussian L;
     GaussianBlur := GaussianBlur L;
     threshold_otsu := threshold_otsu L;
     rectangle := rectangle L;
     putText := putText L;
     imencode_jpg := imencode_jpg L;
     image_to_data := image_to_data L;
     image_to_string := image_to_string L;
     b64encode := b64encode L;
     exn_str := exn_str L;
     int_str := int_str L |}.

(** [L] with another OCR engine. *)
Definition set_engine (L : libs)
    (to_data : ndarray -> pystr -> pystr -> result ocr_dict)
    (to_string : ndarray -> pystr -> pystr -> result pystr) : libs :=
  {| imdecode := imdecode L;
     cvtColor_BGR2GRAY := cvtColor_BGR2GRAY L;
     resize_cubic := resize_cubic L;
     fastNlMeansDenoising := fastNlMeansDenoising L;
     clahe_apply := clahe_apply L;
     adaptiveThreshold_gaussian := adaptiveThreshold_gaussian L;
     GaussianBlur := GaussianBlur L;
     threshold_otsu := threshold_otsu L;
     rectangle := rectangle L;
     putText := putText L;
     imencode_jpg := imencode_jpg L;
     image_to_data := to_data;
     image_to_string := to_string;
     b64encode := b64encode L;
     exn_str := exn_str L;
     int_str := int_str L |}.

(** The grayscale image after the optional upscaling, denoising and
    contrast enhancement: the input of both binarizations. *)
Definition enhanced (L : libs) (image : ndarray) : result ndarray :=
  gray <- cvtColor_BGR2GRAY L image ;;
  hw <- unpack2 (shape gray) ;;
  let '(height, width) := hw in
  gray <- (if width <? 2000 then
             scale <- truediv 2000 width ;;
             new_width <- int_of_float (int_mul_float width scale) ;;
             new_height <- int_of_float (int_mul_float height scale) ;;
             resize_cubic L gray (new_width, new_height)
           else Ok gray) ;;
  denoised <- fastNlMeansDenoising L gray 10 7 21 ;;
  clahe_apply L 2%float (8, 8) denoised.

(** The nearest integer to [d * 2000 / w] (halves up), as the
    specification words the upscaling. *)
Definition nearest_scaled (d w : Z) : Z := (2 * 2000 * d + w) / (2 * w).

(** The names of colours as scalars of a blue-green-red image, and the
    tuple the source writes for the middle tier. *)
Definition bgr_green : color := (0, 255, 0).
Definition bgr_red : color := (0, 0, 255).
Definition bgr_orange : color := (0, 165, 255).
Definition middle_color : color := (255, 165, 0).

(** An engine word: row [i] of the dictionary has a confidence cell on
    which [int] gives [conf], and the text [raw]. *)
Definition word_at (L : libs) (d : ocr_dict) (i : nat) (conf : Z) (raw : pystr) : Prop :=
  exists ccol tcol c,
    d !! "conf" = Some ccol /\ ccol !! i = Some c /\ py_int L c = Ok conf /\
    d !! "text" = Some tcol /\ tcol !! i = Some (CStr raw).

(** The annotated contents: every box drawn, in order, on [a]. *)
Fixpoint drawn_on (L : libs) (a : ndarray) (boxes : list TextBox) : result ndarray :=
  match boxes with
  | [] => Ok a
  | box :: rest =>
      let x := tb_x box in
      let y := tb_y box in
      a1 <- rectangle L a (x, y) (x + tb_width box, y + tb_height box) (box_color box) 2 ;;
      a2 <- putText L a1 (box_label box) (x, y - 5) 0.5%float (box_color box) 1 ;;
      drawn_on L a2 rest
  end.

(** A computation that raises nothing but instances of [Exception]. *)
Definition only_exceptions {A} (m : result A) : Prop :=
  forall e, m = Raise e -> is_exception e = true.

(** A string that does not start with a whitespace character. *)
Definition starts_clean (s : pystr) : Prop :=
  match s with
  | [] => True
  | c :: _ => isspace c = false
  end.

(** A box kept from a row of the engine's dictionary [d]: the row's
    confidence is above 30, the box carries it as a float and the row's
    text stripped, which is not empty. *)
Definition kept (L : libs) (d : ocr_dict) (b : TextBox) : Prop :=
  30 < tb_confidence b /\ tb_text b <> [] /\
  exists i conf raw,
    word_at L d i conf raw /\ 30 < conf /\
    float_of_int conf = Ok (tb_confidence b) /\ tb_text b = strip raw.

(** The engine configurations and language of the source. *)
Definition psm3 : pystr := lit "--oem 3 --psm 3".
Definition psm6 : pystr := lit "--oem 3 --psm 6".
Definition eng : pystr := lit "eng".

(** The exception [process_ocr] raises for an undecodable upload. *)
Definition invalid_image : exn := HTTPException 400 (lit "Invalid image file").

(** The steps of [preprocess_image] after the optional upscaling. *)
Definition finish (L : libs) (gray : ndarray) : result ndarray :=
  denoised <- fastNlMeansDenoising L gray 10 7 21 ;;
  contrast <- clahe_apply L 2%float (8, 8) denoised ;;
  adaptive <- adaptiveThreshold_gaussian L contrast 255 11 2 ;;
  blur <- GaussianBlur L contrast (5, 5) 0 ;;
  otsu <- threshold_otsu L blur 0 255 ;;
  if count_zero adaptive <? count_zero otsu then Ok otsu else Ok adaptive.

(** The optional upscaling of a grayscale image of the given size. *)
Definition upscale (L : libs) (gray : ndarray) (height width : Z) : result ndarray :=
  if width <? 2000 then
    scale <- truediv 2000 width ;;
    new_width <- int_of_float (int_mul_float width scale) ;;
    new_height <- int_of_float (int_mul_float height scale) ;;
    resize_cubic L gray (new_width, new_height)
  else Ok gray.

(** What the upscaling needs of a width below 2000, as a test that
    computes: the factor [2000 / w] is a positive normal float in
    [[1, 2^12)] and [int(w * (2000 / w))] is 1999 or 2000. *)
Definition scale_ok (w : Z) : bool :=
  match Prim2SF (PrimFloat.div (float_of_Z 2000) (float_of_Z w)) with
  | S754_finite false ms es =>
      (Zpos (digits2_pos ms) =? 53) && (-52 <=? es) && (es <=? -41) &&
      match int_of_float (int_mul_float w (PrimFloat.div (float_of_Z 2000) (float_of_Z w))) with
      | Ok nw => (1999 <=? nw) && (nw <=? 2000)
      | Raise _ => false
      end
  | _ => false
  end.

End Laws.
Export Laws.

(** ** A small concrete instance of the libraries

    Stand-ins for OpenCV and Tesseract that compute, used to run the
    pipeline on concrete inputs. *)

Module Toy.

Definition cv_error : exn := LibError (lit "cv2.error").

(** Grayscale from the first channel of every pixel. *)
Fixpoint first_channel (l : list Z) : list Z :=
  match l with
  | b :: _ :: _ :: rest => b :: first_channel rest
  | _ => []
  end.

Definition toy_cvtColor (img : ndarray) : result ndarray :=
  match shape img with
  | [h; w; 3] =>
      if (0 <? h) && (0 <? w)
      then Ok {| shape := [h; w]; data := first_channel (data img) |}
      else Raise cv_error
  | _ => Raise cv_error
  end.

Definition toy_resize (g : ndarray) (dsize : Z * Z) : result ndarray :=
  let '(nw, nh) := dsize in
  if (0 <? nw) && (0 <? nh)
  then Ok {| shape := [nh; nw]; data := List.repeat (hd 255 (data g)) (Z.to_nat (nh * nw)) |}
  else Raise cv_error.

Definition binarize (t : Z) (g : ndarray) : ndarray :=
  {| shape := shape g; data := map (fun p => if p <? t then 0 else 255) (data g) |}.

Definition toy_first (v : Z) (a : ndarray) : ndarray :=
  {| shape := shape a; data := match data a with [] => [] | _ :: r => v :: r end |}.

Definition wide_image : ndarray :=
  {| shape := [1; 2000; 3]; data := List.repeat 150 (Z.to_nat 6000) |}.

Definition small_image : ndarray :=
  {| shape := [1; 3; 3]; data := [10; 10; 10; 150; 150; 150; 250; 250; 250] |}.

Definition narrow_image : ndarray :=
  {| shape := [1; 19; 3]; data := List.repeat 250 (Z.to_nat 57) |}.

(** A decoder for a one-byte header: 1, 2 and 3 name the three images
    above, anything else is not an image; OpenCV raises on an empty
    buffer. *)
Definition toy_imdecode (contents : bytes) : result (option ndarray) :=
  match contents with
  | [] => Raise cv_error
  | Byte.x01 :: _ => Ok (Some wide_image)
  | Byte.x02 :: _ => Ok (Some small_image)
  | Byte.x03 :: _ => Ok (Some narrow_image)
  | _ => Ok None
  end.

Definition toy_words : ocr_dict :=
  {[ "text" := [CStr []; CStr (lit "Hello"); CStr (lit "   "); CStr (lit " fine ");
                CStr (lit "world"); CStr (lit "x")];
     "conf" := [CInt (-1); CInt 96; CInt 95; CInt 60; CInt 44; CInt 12];
     "left" := [CInt 0; CInt 10; CInt 70; CInt 80; CInt 150; CInt 300];
     "top" := [CInt 0; CInt 20; CInt 20; CInt 20; CInt 22; CInt 25];
     "width" := [CInt 2000; CInt 50; CInt 5; CInt 60; CInt 55; CInt 9];
     "height" := [CInt 1; CInt 18; CInt 18; CInt 17; CInt 18; CInt 10] ]}.

Definition toy_to_data (a : ndarray) (config lang : pystr) : result ocr_dict :=
  Ok toy_words.

Definition toy_to_string (a : ndarray) (config lang : pystr) : result pystr :=
  if decide (config = lit "--oem 3 --psm 3") then Ok (lit " Hello fine
")
  else Ok (lit "Hello fine world
").

Definition toy_exn_str (e : exn) : pystr :=
  match e with
  | HTTPException code detail => str_of_Z code ++ lit ": " ++ detail
  | LibError msg => msg
  | _ => []
  end.

(** A parser of decimal literals: surrounding whitespace, an optional
    sign, ASCII digits. *)
Fixpoint digits_value (acc : Z) (s : pystr) : option Z :=
  match s with
  | [] => Some acc
  | c :: s' =>
      if ((48 <=? c) && (c <=? 57))%N
      then digits_value (10 * acc + Z.of_N (c - 48)) s'
      else None
  end.

Definition toy_int_str (s : pystr) : option Z :=
  match strip s with
  | [] => None
  | 45%N :: (_ :: _) as ds => option_map Z.opp (digits_value 0 ds)
  | 43%N :: (_ :: _) as ds => digits_value 0 ds
  | ds => digits_value 0 ds
  end.

Definition toy : libs :=
  {| imdecode := toy_imdecode;
     cvtColor_BGR2GRAY := toy_cvtColor;
     resize_cubic := toy_resize;
     fastNlMeansDenoising := fun g _ _ _ => Ok g;
     clahe_apply := fun _ _ g => Ok g;
     adaptiveThreshold_gaussian := fun g _ _ _ => Ok (binarize 128 g);
     GaussianBlur := fun g _ _ => Ok g;
     threshold_otsu := fun g _ _ => Ok (binarize 200 g);
     rectangle := fun a _ _ c _ => Ok (toy_first (fst (fst c)) a);
     putText := fun a _ _ _ c _ => Ok (toy_first (snd c) a);
     imencode_jpg := fun _ => Ok [Byte.xff; Byte.xd8];
     image_to_data := toy_to_data;
     image_to_string := toy_to_string;
     b64encode := fun _ => lit "/9g=";
     exn_str := toy_exn_str;
     int_str := toy_int_str |}.




End Toy.
Export Toy.

(** ** The rest of [main.py] and what its properties are stated with *)

Module More.

(** [test_tesseract]: [get_tesseract_version] stands for the outcome of
    [pytesseract.get_tesseract_version()], the version given by its
    [str]; the answer is the dictionary the endpoint returns. *)
Definition test_tesseract (L : libs) (get_tesseract_version : result pystr)
  : result (gmap string pystr) :=
  try_except
    (version <- get_tesseract_version ;;
     Ok {[ "status" := lit "OK"; "tesseract_version" := version ]})
    (fun e => Ok {[ "status" := lit "ERROR"; "message" := exn_str L e ]}).

(** The text the success response carries when nothing was extracted. *)
Definition fallback_text : pystr := lit "Tidak dapat mendeteksi teks".

(** The prefix of the [processed_image] payload. *)
Definition jpeg_prefix : pystr := lit "data:image/jpeg;base64,".

(** One row of the table the engine reports. *)
Record word : Type := mk_word {
  w_text : pystr;
  w_conf : Z;
  w_left : Z;
  w_top : Z;
  w_width : Z;
  w_height : Z
}.

(** [d] holds the rows [rows]: its six columns list their fields, the
    text as [str] cells and the numbers as [int] cells. *)
Definition table (d : ocr_dict) (rows : list word) : Prop :=
  d !! "text" = Some (map (fun r => CStr (w_text r)) rows) /\
  d !! "conf" = Some (map (fun r => CInt (w_conf r)) rows) /\
  d !! "left" = Some (map (fun r => CInt (w_left r)) rows) /\
  d !! "top" = Some (map (fun r => CInt (w_top r)) rows) /\
  d !! "width" = Some (map (fun r => CInt (w_width r)) rows) /\
  d !! "height" = Some (map (fun r => CInt (w_height r)) rows).

(** The rows that become boxes, and the box of a row. *)
Definition keeps (r : word) : bool :=
  (30 <? w_conf r) && truthy (strip (w_text r)).

(** [float(conf)] of the row succeeds. *)
Definition conf_fits (r : word) : bool :=
  match float_of_int (w_conf r) with
  | Ok _ => true
  | Raise _ => false
  end.

Definition box_of_word (r : word) : TextBox :=
  {| tb_text := strip (w_text r); tb_x := w_left r; tb_y := w_top r;
     tb_width := w_width r; tb_height := w_height r;
     tb_confidence := match float_of_int (w_conf r) with
                      | Ok v => v
                      | Raise _ => 0
                      end |}.

(** The boxes of a table: one per kept row, or none at all when the
    confidence of a kept row is too large for a float. *)
Definition boxes_of_rows (rows : list word) : list TextBox :=
  if List.forallb conf_fits (List.filter keeps rows)
  then map box_of_word (List.filter keeps rows)
  else [].

(** Row [i] has no confidence [int] accepts: the column is too short,
    or [int] raises on the cell. *)
Definition bad_confidence (L : libs) (d : ocr_dict) (i : nat) : Prop :=
  forall ccol c z, d !! "conf" = Some ccol -> ccol !! i = Some c -> py_int L c <> Ok z.

(** A dictionary the loop of [detect_text_regions] cannot get through:
    no text or confidence column, or a row without a confidence [int]
    accepts. *)
Definition malformed (L : libs) (d : ocr_dict) : Prop :=
  d !! "text" = None \/
  d !! "conf" = None \/
  exists tcol i, d !! "text" = Some tcol /\ (i < length tcol)%nat /\ bad_confidence L d i.

(** The rows of the stand-in engine. *)
Definition toy_rows : list word :=
  [mk_word [] (-1) 0 0 2000 1;
   mk_word (lit "Hello") 96 10 20 50 18;
   mk_word (lit "   ") 95 70 20 5 18;
   mk_word (lit " fine ") 60 80 20 60 17;
   mk_word (lit "world") 44 150 22 55 18;
   mk_word (lit "x") 12 300 25 9 10].

(** The stand-in engine's table with every confidence a numeric
    string. *)
Definition toy_str_words : ocr_dict :=
  <[ "conf" := [CStr (lit "-1"); CStr (lit "96"); CStr (lit "95"); CStr (lit "60");
                CStr (lit "44"); CStr (lit "12")] ]> toy_words.

Definition toy_str_cells : libs :=
  set_engine toy (fun _ _ _ => Ok toy_str_words) toy_to_string.

(** An engine that ends the interpreter, as pytesseract does on a
    version it cannot parse. *)
Definition engine_exit : exn := SystemExit (lit "Invalid tesseract version").

Definition toy_exit_engine : libs :=
  set_engine toy (fun _ _ _ => Raise engine_exit) (fun _ _ _ => Raise engine_exit).


(** The stand-in engine's table with the confidence of its fourth row
    a string that is not a number. *)
Definition toy_bad_words : ocr_dict :=
  <[ "conf" := [CInt (-1); CInt 96; CInt 95; CStr (lit "n/a"); CInt 44; CInt 12] ]> toy_words.

Definition toy_bad_cell : libs :=
  set_engine toy (fun _ _ _ => Ok toy_bad_words) toy_to_string.

(** Stand-in libraries whose decoder yields a grayscale array, which
    the colour conversion refuses. *)
Definition toy_gray_upload : libs :=
  {| imdecode := fun _ => Ok (Some (mk_ndarray [1; 3] [10; 150; 250]));
     cvtColor_BGR2GRAY := cvtColor_BGR2GRAY toy;
     resize_cubic := resize_cubic toy;
     fastNlMeansDenoising := fastNlMeansDenoising toy;
     clahe_apply := clahe_apply toy;
     adaptiveThreshold_gaussian := adaptiveThreshold_gaussian toy;
     GaussianBlur := GaussianBlur toy;
     threshold_otsu := threshold_otsu toy;
     rectangle := rectangle toy;
     putText := putText toy;
     imencode_jpg := imencode_jpg toy;
     image_to_data := image_to_data toy;
     image_to_string := image_to_string toy;
     b64encode := b64encode toy;
     exn_str := exn_str toy;
     int_str := int_str toy |}.

(** Stand-in libraries whose label drawing raises. *)
Definition toy_no_font : libs :=
  {| imdecode := imdecode toy;
     cvtColor_BGR2GRAY := cvtColor_BGR2GRAY toy;
     resize_cubic := resize_cubic toy;
     fastNlMeansDenoising := fastNlMeansDenoising toy;
     clahe_apply := clahe_apply toy;
     adaptiveThreshold_gaussian := adaptiveThreshold_gaussian toy;
     GaussianBlur := GaussianBlur toy;
     threshold_otsu := threshold_otsu toy;
     rectangle := rectangle toy;
     putText := fun _ _ _ _ _ _ => Raise cv_error;
     imencode_jpg := imencode_jpg toy;
     image_to_data := image_to_data toy;
     image_to_string := image_to_string toy;
     b64encode := b64encode toy;
     exn_str := exn_str toy;
     int_str := int_str toy |}.

(** A text without a whitespace character at either end. *)
Definition trimmed (s : pystr) : Prop :=
  starts_clean s /\ starts_clean (rev s) /\ strip s = s.

(** The success response of [process_ocr] for the given boxes, extracted
    text and JPEG buffer. *)
Definition success_response (L : libs) (boxes : list TextBox)
    (extracted_text : pystr) (buffer : bytes) : JSONResponse :=
  {| success := true;
     rdata := {|
       text := if truthy extracted_text then extracted_text else fallback_text;
       average_confidence :=
         py_round2 (if truthy boxes then PyFloat (np_mean (map tb_confidence boxes))
                    else PyInt 0);
       rotation_angle := 0;
       text_boxes := boxes;
       processed_image := jpeg_prefix ++ b64encode L buffer;
       total_boxes := len boxes |} |}.

End More.
Export More.

(** * Properties *)

(** ** Strings *)

Section StripFacts.

Lemma lstrip_starts_clean s : starts_clean (lstrip s).
Proof.
  induction s as [|c s IH]; simpl; [exact I|].
  destruct (isspace c) eqn:E; [exact IH | exact E].
Qed.

Lemma lstrip_clean s : starts_clean s -> lstrip s = s.
Proof. destruct s as [|c s]; simpl; [reflexivity|]. intros ->. reflexivity. Qed.

Lemma lstrip_suffix s : exists p, s = p ++ lstrip s.
Proof.
  induction s as [|c s [p IH]]; simpl.
  - exists []. reflexivity.
  - destruct (isspace c).
    + exists (c :: p). simpl. f_equal. exact IH.
    + exists []. reflexivity.
Qed.

Lemma rstrip_prefix s : exists q, s = rstrip s ++ q.
Proof.
  destruct (lstrip_suffix (rev s)) as [p Hp].
  exists (rev p). unfold rstrip.
  rewrite <- rev_app_distr, <- Hp, rev_involutive. reflexivity.
Qed.

Lemma rstrip_starts_clean s : starts_clean s -> starts_clean (rstrip s).
Proof.
  intros Hs. destruct (rstrip_prefix s) as [q Hq].
  destruct (rstrip s) as [|c r]; [exact I|].
  rewrite Hq in Hs. exact Hs.
Qed.

Lemma rstrip_idem s : rstrip (rstrip s) = rstrip s.
Proof.
  unfold rstrip. rewrite rev_involutive.
  rewrite (lstrip_clean (lstrip (rev s))); [reflexivity|apply lstrip_starts_clean].
Qed.

Lemma strip_starts_clean s : starts_clean (strip s).
Proof. apply rstrip_starts_clean, lstrip_starts_clean. Qed.

(** Trimming a trimmed string changes nothing. *)
Lemma strip_idem s : strip (strip s) = strip s.
Proof.
  unfold strip at 1. rewrite (lstrip_clean (strip s)) by apply strip_starts_clean.
  unfold strip. apply rstrip_idem.
Qed.

Lemma truthy_nonempty {A} (l : list A) : truthy l = true <-> l <> [].
Proof. destruct l; simpl; split; congruence. Qed.

Lemma len_nonneg {A} (l : list A) : 0 <= len l.
Proof. unfold len. lia. Qed.

End StripFacts.

(** ** The exception monad *)

Lemma bind_Ok {A B} (m : result A) (k : A -> result B) b :
  bind m k = Ok b -> exists a, m = Ok a /\ k a = Ok b.
Proof. destruct m as [a|e]; simpl; [eauto | discriminate]. Qed.

(** A [try] whose handler raises returns only what its body returns. *)
Lemma try_except_Ok {A} (body : result A) (handler : exn -> exn) (a : A) :
  try_except body (fun e => Raise (handler e)) = Ok a -> body = Ok a.
Proof.
  destruct body as [x|e]; cbn [try_except]; [auto|].
  destruct (is_exception e); discriminate.
Qed.

Lemma only_exceptions_Ok {A} (a : A) : only_exceptions (Ok a).
Proof. intros e H. discriminate H. Qed.

Lemma only_exceptions_Raise {A} (e : exn) :
  is_exception e = true -> only_exceptions (@Raise A e).
Proof. intros He e' H. injection H as <-. exact He. Qed.

Lemma only_exceptions_bind {A B} (m : result A) (k : A -> result B) :
  only_exceptions m -> (forall a, only_exceptions (k a)) -> only_exceptions (bind m k).
Proof.
  intros Hm Hk e. destruct m as [a|e0]; cbn [bind].
  - apply Hk.
  - intros H. injection H as <-. exact (Hm e0 eq_refl).
Qed.

(** A [try] with a default catches whatever a body raises that is an
    [Exception]. *)
Lemma try_except_default {A} (body : result A) (dflt : A) :
  only_exceptions body -> exists a, try_except body (fun _ => Ok dflt) = Ok a.
Proof.
  intros H. destruct body as [a|e]; cbn [try_except]; [eauto|].
  rewrite (H e eq_refl). eauto.
Qed.

Ltac bind_inv H :=
  let a := fresh "v" in
  let Ha := fresh "Hv" in
  apply bind_Ok in H; destruct H as (a & Ha & H).

Ltac only_exc :=
  repeat first
    [ apply only_exceptions_Ok
    | apply only_exceptions_Raise; reflexivity
    | apply only_exceptions_bind; [|intros ?]
    | match goal with
      | |- only_exceptions (if ?b then _ else _) => destruct b
      | |- only_exceptions (match ?x with _ => _ end) => destruct x
      end ].

(** ** Colour examples *)

Example color_85 : box_color (mk_TextBox (lit "a") 0 0 1 1 85) = bgr_green.
Proof. reflexivity. Qed.
Example color_60 : box_color (mk_TextBox (lit "a") 0 0 1 1 60) = middle_color.
Proof. reflexivity. Qed.
Example color_20 : box_color (mk_TextBox (lit "a") 0 0 1 1 20) = bgr_red.
Proof. reflexivity. Qed.
Example color_70 : box_color (mk_TextBox (lit "a") 0 0 1 1 70) = middle_color.
Proof. reflexivity. Qed.

(** ** Converting an [int] to a [float] *)

Example float_of_int_96 : float_of_int 96 = Ok 96.
Proof. reflexivity. Qed.
Example float_of_int_2_53_1 : float_of_int (2 ^ 53 + 1) = Ok (2 ^ 53).
Proof. vm_compute. reflexivity. Qed.
Example float_of_int_2_53_3 : float_of_int (2 ^ 53 + 3) = Ok (2 ^ 53 + 4).
Proof. vm_compute. reflexivity. Qed.
Example float_of_int_huge : float_of_int (10 ^ 400) = Raise OverflowError.
Proof. vm_compute. reflexivity. Qed.
Example float_of_int_max : float_of_int (2 ^ 1024 - 2 ^ 970) = Raise OverflowError.
Proof. vm_compute. reflexivity. Qed.
Example float_of_int_below_max :
  float_of_int (2 ^ 1024 - 2 ^ 970 - 1) = Ok (2 ^ 1024 - 2 ^ 971).
Proof. vm_compute. reflexivity. Qed.

Lemma round53_lower z : 0 < z -> Z.min z (2 ^ 52) <= round53 z.
Proof.
  intros Hz. unfold round53.
  destruct (Z.log2 z + 1 <=? 53) eqn:E; [lia|].
  set (sh := Z.log2 z + 1 - 53).
  assert (Hsh : 0 < sh) by (unfold sh; lia).
  assert (Hpow : 0 < 2 ^ sh) by (apply Z.pow_pos_nonneg; lia).
  assert (Hq : 2 ^ 52 <= z / 2 ^ sh).
  { apply Z.div_le_lower_bound; [lia|].
    rewrite Z.mul_comm, <- Z.pow_add_r by lia.
    replace (52 + sh) with (Z.log2 z) by (unfold sh; lia).
    apply Z.log2_spec. exact Hz. }
  assert (Hq' : z / 2 ^ sh <=
                match 2 * (z mod 2 ^ sh) ?= 2 ^ sh with
                | Eq => if Z.even (z / 2 ^ sh) then z / 2 ^ sh else z / 2 ^ sh + 1
                | Lt => z / 2 ^ sh
                | Gt => z / 2 ^ sh + 1
                end).
  { destruct (2 * (z mod 2 ^ sh) ?= 2 ^ sh); [destruct (Z.even _)| |]; lia. }
  nia.
Qed.

(** A confidence above 30 stays above 30 as a float. *)
Lemma float_of_int_gt_30 z v : 30 < z -> float_of_int z = Ok v -> 30 < v.
Proof.
  intros Hz. unfold float_of_int.
  destruct (2 ^ 1024 <=? round53 (Z.abs z)); [discriminate|].
  intros H. injection H as <-.
  rewrite Z.abs_eq by lia. rewrite Z.sgn_pos by lia.
  pose proof (round53_lower z ltac:(lia)) as Hr.
  assert (30 < Z.min z (2 ^ 52)) by (apply Z.min_glb_lt; [lia|reflexivity]).
  lia.
Qed.

Lemma float_of_int_only z : only_exceptions (float_of_int z).
Proof. unfold float_of_int. only_exc. Qed.

Lemma int_of_float_only f : only_exceptions (int_of_float f).
Proof. unfold int_of_float. only_exc. Qed.

(** ** Region detection (C3) *)

Section Detect.

Context (L : libs).

Lemma py_int_only c : only_exceptions (py_int L c).
Proof.
  destruct c as [z|f|s]; cbn [py_int]; [only_exc|apply int_of_float_only|only_exc].
Qed.

Lemma int_cell_only d key i :
  only_exceptions (col <- getitem d key ;; c <- index col i ;; py_int L c).
Proof.
  unfold getitem, index. only_exc. apply py_int_only.
Qed.

Lemma str_cell_only d key i :
  only_exceptions (col <- getitem d key ;; c <- index col i ;; cell_strip c).
Proof. unfold getitem, index, cell_strip. only_exc. Qed.

(** The loop body raises nothing but instances of [Exception]. *)
Lemma detect_step_only d boxes i : only_exceptions (detect_step L d boxes i).
Proof.
  unfold detect_step.
  apply only_exceptions_bind; [apply int_cell_only|intros conf].
  destruct (30 <? conf); [|only_exc].
  apply only_exceptions_bind; [apply str_cell_only|intros t].
  destruct (truthy t && (0 <? len t)); [|only_exc].
  do 4 (apply only_exceptions_bind; [apply int_cell_only|intros ?]).
  apply only_exceptions_bind; [apply float_of_int_only|intros ?]. only_exc.
Qed.

Lemma for_each_only d l : forall acc, only_exceptions (for_each (detect_step L d) l acc).
Proof.
  induction l as [|i l IH]; intros acc; cbn [for_each]; [only_exc|].
  apply only_exceptions_bind; [apply detect_step_only|exact IH].
Qed.

Lemma int_cell_Ok d key i z :
  (col <- getitem d key ;; c <- index col i ;; py_int L c) = Ok z ->
  exists col c, d !! key = Some col /\ col !! i = Some c /\ py_int L c = Ok z.
Proof.
  unfold getitem, index. intros H.
  destruct (d !! key) as [col|] eqn:Hd; cbn [bind] in H; [|discriminate].
  destruct (col !! i) as [c|] eqn:Hi; cbn [bind] in H; [|discriminate].
  exists col, c. auto.
Qed.

Lemma str_cell_Ok d key i t :
  (col <- getitem d key ;; c <- index col i ;; cell_strip c) = Ok t ->
  exists col raw, d !! key = Some col /\ col !! i = Some (CStr raw) /\ t = strip raw.
Proof.
  unfold getitem, index. intros H.
  destruct (d !! key) as [col|] eqn:Hd; cbn [bind] in H; [|discriminate].
  destruct (col !! i) as [[z'|f|s]|] eqn:Hi; cbn [bind cell_strip] in H;
    try discriminate.
  exists col, s. repeat split; congruence.
Qed.

Lemma detect_step_kept d boxes i res :
  detect_step L d boxes i = Ok res ->
  res = boxes \/ exists b, res = boxes ++ [b] /\ kept L d b.
Proof.
  unfold detect_step. intros H.
  bind_inv H. rename v into conf.
  destruct (30 <? conf) eqn:Hconf; [|left; congruence].
  bind_inv H. rename v into t.
  destruct (truthy t && (0 <? len t)) eqn:Ht; [|left; congruence].
  do 5 bind_inv H. injection H as <-.
  right. eexists. split; [reflexivity|].
  apply int_cell_Ok in Hv as (ccol & c & Hc1 & Hc2 & Hc3).
  apply str_cell_Ok in Hv0 as (tcol & raw & Ht1 & Ht2 & ->).
  apply andb_prop in Ht as [Ht _]. apply truthy_nonempty in Ht.
  unfold kept; cbn [tb_confidence tb_text].
  split; [apply (float_of_int_gt_30 conf); [lia|assumption]|].
  split; [exact Ht|].
  exists i, conf, raw. split; [|split; [lia|split; [assumption|reflexivity]]].
  exists ccol, tcol, c. auto.
Qed.

Lemma for_each_kept d l : forall acc res,
  Forall (kept L d) acc ->
  for_each (detect_step L d) l acc = Ok res ->
  Forall (kept L d) res.
Proof.
  induction l as [|i l IH]; simpl; intros acc res Hacc H.
  - congruence.
  - bind_inv H. apply (IH v); [|exact H].
    apply detect_step_kept in Hv as [->|(b & -> & Hb)]; [exact Hacc|].
    apply Forall_app. split; [exact Hacc|]. constructor; [exact Hb|constructor].
Qed.

(** What [detect_text_regions] does once the image is preprocessed: on
    an answer of the engine it returns boxes kept from it; an
    [Exception] of the engine gives the empty list; any other exception
    of the engine leaves the function. *)
Lemma detect_after_preprocess image processed :
  preprocess_image L image = Ok processed ->
  match image_to_data L processed (lit "--oem 3 --psm 3") (lit "eng") with
  | Ok d => exists boxes, detect_text_regions L image = Ok boxes /\
                          Forall (kept L d) boxes
  | Raise e => detect_text_regions L image = if is_exception e then Ok [] else Raise e
  end.
Proof.
  intros Hp. unfold detect_text_regions. rewrite Hp. cbn [bind].
  destruct (image_to_data L processed _ _) as [d|e]; cbn [bind try_except];
    [|reflexivity].
  destruct (getitem d "text") as [col|e] eqn:Hg; cbn [bind try_except].
  - destruct (for_each (detect_step L d) (seq 0 (length col)) []) as [res|e] eqn:E;
      cbn [try_except].
    + exists res. split; [reflexivity|].
      eapply for_each_kept; [|exact E]. constructor.
    + rewrite (for_each_only d _ [] e E). exists []. split; [reflexivity|constructor].
  - assert (He : is_exception e = true).
    { unfold getitem in Hg. destruct (d !! "text"); [discriminate|].
      injection Hg as <-. reflexivity. }
    rewrite He. exists []. split; [reflexivity|constructor].
Qed.

End Detect.

(** C3: once the image is preprocessed and the engine has answered,
    [detect_text_regions] returns a list in which every box has
    confidence above 30 and a text that is trimmed and not empty, and
    every box is a row of the engine's answer on whose confidence cell
    [int] gives more than 30 and whose text does not trim to the empty
    string: rows at or below 30 and whitespace-only rows yield no box.
    (When the engine raises, no box is returned at all.) *)
Theorem C3_detect_keeps_confident_words (L : libs) (image processed : ndarray) :
  preprocess_image L image = Ok processed ->
  match image_to_data L processed (lit "--oem 3 --psm 3") (lit "eng") with
  | Ok d =>
      exists boxes, detect_text_regions L image = Ok boxes /\
        Forall (fun b =>
          30 < tb_confidence b /\
          strip (tb_text b) = tb_text b /\ strip (tb_text b) <> [] /\
          exists i conf raw,
            word_at L d i conf raw /\ 30 < conf /\
            float_of_int conf = Ok (tb_confidence b) /\
            strip raw <> [] /\ tb_text b = strip raw) boxes
  | Raise e =>
      detect_text_regions L image = Ok [] \/ detect_text_regions L image = Raise e
  end.
Proof.
  intros Hp. pose proof (detect_after_preprocess L image processed Hp) as H.
  destruct (image_to_data L processed _ _) as [d|e].
  - destruct H as (boxes & Hd & Hk). exists boxes. split; [exact Hd|].
    eapply Forall_impl; [exact Hk|].
    intros b (Hc & Hne & i & conf & raw & Hw & Hconf & Hf & Ht). simpl.
    assert (Hs : strip (tb_text b) = tb_text b) by (rewrite Ht; apply strip_idem).
    repeat split; try assumption.
    + rewrite Hs. exact Hne.
    + exists i, conf, raw. repeat split; try assumption. rewrite <- Ht. exact Hne.
  - rewrite H. destruct (is_exception e); auto.
Qed.

(** On the stand-in libraries: three of six rows are kept. *)
Lemma C3_detect_witness :
  exists boxes, detect_text_regions toy wide_image = Ok boxes /\
    Forall (fun b =>
      30 < tb_confidence b /\
      strip (tb_text b) = tb_text b /\ strip (tb_text b) <> [] /\
      exists i conf raw,
        word_at toy toy_words i conf raw /\ 30 < conf /\
        float_of_int conf = Ok (tb_confidence b) /\
        strip raw <> [] /\ tb_text b = strip raw) boxes.
Proof.
  exact (C3_detect_keeps_confident_words toy wide_image
           (binarize 200 (mk_ndarray [1; 2000] (List.repeat 150 (Z.to_nat 2000))))
           ltac:(vm_compute; reflexivity)).
Defined.

(** A table whose confidences are numeric strings gives the same three
    boxes: [int] parses them. *)
Example detect_string_confidences :
  rmap (map tb_confidence) (detect_text_regions toy_str_cells wide_image)
    = Ok [96; 60; 44].
Proof. vm_compute. reflexivity. Qed.

(** ** Text extraction (C4) and engine failures (C9) *)

(** C4: when preprocessing answers and both engine passes return,
    [extract_text] returns the longer of the two trimmed outputs, the
    full-page one on a tie; its length is the larger of the two lengths,
    hence at least the smaller. *)
Theorem C4_extract_returns_longer (L : libs) (image processed : ndarray)
    (text1 text2 : pystr) :
  preprocess_image L image = Ok processed ->
  image_to_string L processed psm3 eng = Ok text1 ->
  image_to_string L processed psm6 eng = Ok text2 ->
  exists r, extract_text L image = Ok r /\
    (len (strip text1) < len (strip text2) -> r = strip text2) /\
    (len (strip text2) < len (strip text1) -> r = strip text1) /\
    (len (strip text2) = len (strip text1) -> r = strip text1) /\
    len r = Z.max (len (strip text1)) (len (strip text2)) /\
    Z.min (len (strip text1)) (len (strip text2)) <= len r.
Proof.
  intros Hp H1 H2. unfold extract_text, psm3, psm6, eng in *.
  rewrite Hp. cbn [bind try_except]. rewrite H1. cbn [bind try_except].
  rewrite H2. cbn [bind try_except].
  destruct (len (strip text1) <? len (strip text2)) eqn:E; cbn [try_except];
    eexists; (split; [reflexivity|]); repeat split; intros; try lia; try reflexivity.
Qed.

(** On the stand-in libraries the single-block pass is the longer one. *)
Lemma C4_extract_witness :
  exists r, extract_text toy wide_image = Ok r /\
    (len (strip (lit " Hello fine
")) < len (strip (lit "Hello fine world
")) -> r = strip (lit "Hello fine world
")) /\
    (len (strip (lit "Hello fine world
")) < len (strip (lit " Hello fine
")) -> r = strip (lit " Hello fine
")) /\
    (len (strip (lit "Hello fine world
")) = len (strip (lit " Hello fine
")) -> r = strip (lit " Hello fine
")) /\
    len r = Z.max (len (strip (lit " Hello fine
"))) (len (strip (lit "Hello fine world
"))) /\
    Z.min (len (strip (lit " Hello fine
"))) (len (strip (lit "Hello fine world
"))) <= len r.
Proof.
  apply (C4_extract_returns_longer toy wide_image
           (binarize 200 (mk_ndarray [1; 2000] (List.repeat 150 (Z.to_nat 2000)))));
    vm_compute; reflexivity.
Defined.

Example extract_tie :
  (if len (strip (lit " ab ")) <? len (strip (lit "cd")) then strip (lit "cd")
   else strip (lit " ab ")) = lit "ab".
Proof. reflexivity. Qed.




(** ** Annotation draws on a copy (C7) *)

Section Annotate.

Context (L : libs).

(** One box, step by step: the store after each drawing call. *)
Lemma draw_box_eq (s : store) (r : loc) (a : ndarray) (box : TextBox) :
  s !! r = Some a ->
  draw_box L r box s =
    match rectangle L a (tb_x box, tb_y box)
            (tb_x box + tb_width box, tb_y box + tb_height box) (box_color box) 2 with
    | Raise e => (Raise e, s)
    | Ok a1 =>
        match putText L a1 (box_label box) (tb_x box, tb_y box - 5) 0.5%float
                (box_color box) 1 with
        | Raise e => (Raise e, <[r:=a1]> s)
        | Ok a2 => (Ok tt, <[r:=a2]> (<[r:=a1]> s))
        end
    end.
Proof.
  intros Hr. unfold draw_box, hbind, load, hlift, overwrite. rewrite Hr.
  destruct (rectangle L a _ _ _ _) as [a1|e]; [|reflexivity].
  destruct (putText L a1 _ _ _ _ _) as [a2|e]; reflexivity.
Qed.

Lemma draw_boxes_frame boxes : forall (s : store) (r : loc) (a : ndarray) res s',
  s !! r = Some a ->
  draw_boxes L r boxes s = (res, s') ->
  (forall l', l' <> r -> s' !! l' = s !! l') /\
  match res with
  | Ok _ => exists out, drawn_on L a boxes = Ok out /\ s' !! r = Some out
  | Raise e => drawn_on L a boxes = Raise e
  end.
Proof.
  induction boxes as [|box rest IH]; intros s r a res s' Hr Hrun.
  - injection Hrun as <- <-. split; [reflexivity|]. exists a. auto.
  - cbn [draw_boxes drawn_on] in *. unfold hbind in Hrun.
    rewrite (draw_box_eq s r a box Hr) in Hrun.
    destruct (rectangle L a _ _ _ _) as [a1|e]; cbn [bind].
    + destruct (putText L a1 _ _ _ _ _) as [a2|e]; cbn [bind].
      * destruct (IH _ r a2 res s' (lookup_insert_eq _ _ _) Hrun) as [Hframe Hres].
        split; [|exact Hres].
        intros l' Hl'. rewrite Hframe by exact Hl'.
        rewrite !lookup_insert_ne by congruence. reflexivity.
      * injection Hrun as <- <-. split; [|reflexivity].
        intros l' Hl'. rewrite lookup_insert_ne by congruence. reflexivity.
    + injection Hrun as <- <-. split; reflexivity.
Qed.

(** [draw_bounding_boxes] allocates the copy and draws on it. *)
Lemma draw_bounding_boxes_eq (s : store) (image : loc) (a : ndarray) boxes :
  s !! image = Some a ->
  draw_bounding_boxes L image boxes s =
    (match (draw_boxes L (fresh (dom s)) boxes (<[fresh (dom s):=a]> s)).1 with
     | Ok _ => Ok (fresh (dom s))
     | Raise e => Raise e
     end,
     (draw_boxes L (fresh (dom s)) boxes (<[fresh (dom s):=a]> s)).2).
Proof.
  intros Ha. unfold draw_bounding_boxes, hbind, load, alloc, hret. rewrite Ha.
  destruct (draw_boxes L _ boxes _) as [[u|e] s']; reflexivity.
Qed.

End Annotate.

(** C7: [draw_bounding_boxes] leaves the caller's array, and every other
    array of the store, as it was, whether it returns or raises; what it
    returns is a new array, distinct from the argument, that holds the
    copy with every rectangle and label drawn. *)
Theorem C7_annotate_draws_on_copy (L : libs) (s : store) (image : loc)
    (a : ndarray) (boxes : list TextBox) :
  s !! image = Some a ->
  (draw_bounding_boxes L image boxes s).2 !! image = Some a /\
  (forall l', is_Some (s !! l') ->
     (draw_bounding_boxes L image boxes s).2 !! l' = s !! l') /\
  match (draw_bounding_boxes L image boxes s).1 with
  | Ok result_image =>
      result_image <> image /\ s !! result_image = None /\
      exists out, drawn_on L a boxes = Ok out /\
        (draw_bounding_boxes L image boxes s).2 !! result_image = Some out
  | Raise e => drawn_on L a boxes = Raise e
  end.
Proof.
  intros Ha. rewrite (draw_bounding_boxes_eq L s image a boxes Ha).
  set (r := fresh (dom s)).
  assert (Hfresh : s !! r = None).
  { apply not_elem_of_dom. apply is_fresh. }
  assert (Hne : r <> image) by congruence.
  destruct (draw_boxes L r boxes (<[r:=a]> s)) as [res s'] eqn:E.
  destruct (draw_boxes_frame L boxes (<[r:=a]> s) r a res s'
              (lookup_insert_eq _ _ _) E) as [Hframe Hres].
  assert (Hkeep : forall l', l' <> r -> s' !! l' = s !! l').
  { intros l' Hl'. rewrite Hframe by exact Hl'.
    rewrite lookup_insert_ne by congruence. reflexivity. }
  destruct res as [u|e]; cbn [fst snd].
  - split; [rewrite Hkeep by congruence; exact Ha|].
    split; [intros l' [x Hx]; apply Hkeep; congruence|].
    split; [exact Hne|]. split; [exact Hfresh|exact Hres].
  - split; [rewrite Hkeep by congruence; exact Ha|].
    split; [intros l' [x Hx]; apply Hkeep; congruence|exact Hres].
Qed.

(** On the stand-in libraries, drawing three boxes on the array at
    address 1 returns address 2 and changes only that one. *)
Lemma C7_annotate_witness :
  let s : store := {[ 1%positive := small_image ]} in
  let boxes := [mk_TextBox (lit "Hello") 10 20 50 18 96;
                mk_TextBox (lit "fine") 80 20 60 17 60;
                mk_TextBox (lit "world") 150 22 55 18 44] in
  (draw_bounding_boxes toy 1%positive boxes s).1 = Ok 2%positive /\
  (draw_bounding_boxes toy 1%positive boxes s).2 !! 1%positive = Some small_image /\
  (draw_bounding_boxes toy 1%positive boxes s).2 !! 2%positive
    = Some (mk_ndarray [1; 3; 3] [255; 10; 10; 150; 150; 150; 250; 250; 250]).
Proof.
  intros s boxes.
  pose proof (C7_annotate_draws_on_copy toy s 1%positive small_image boxes eq_refl)
    as (Horig & _ & Hres).
  split; [vm_compute; reflexivity|].
  split; [exact Horig|].
  vm_compute. reflexivity.
Defined.

(** ** Annotation colours (C8) *)

(** C8, as stated, fails at confidence exactly 50: the claim places it
    in the middle tier, the annotator gives it the red of the lowest
    tier. *)
Lemma C8_confidence_50_is_red :
  box_color (mk_TextBox (lit "word") 10 20 50 18 50) = bgr_red /\
  bgr_red <> middle_color /\ bgr_red <> bgr_orange /\
  box_color (mk_TextBox (lit "word") 10 20 50 18 51) = middle_color.
Proof. repeat split; discriminate. Qed.

(** The tuple of the middle tier has its blue channel full and its red
    channel empty; orange on a blue-green-red image is the reverse. *)
Example middle_color_channels :
  blue_of middle_color = 255 /\ green_of middle_color = 165 /\ red_of middle_color = 0 /\
  blue_of bgr_orange = 0 /\ green_of bgr_orange = 165 /\ red_of bgr_orange = 255.
Proof. repeat split. Qed.

(** C8 (amended): the colour of a box depends on its confidence alone.
    Above 70 it is green (only the green channel set), at most 50 it is
    red (only the red channel set), so exactly 50 is red; above 50 and
    at most 70 it is the tuple of the middle tier, distinct from both.
    It is the colour [draw_box] passes to both drawing calls of the
    box. *)
Theorem C8_color_tiers (L : libs) (box : TextBox) :
  (70 < tb_confidence box -> box_color box = bgr_green) /\
  (50 < tb_confidence box <= 70 -> box_color box = middle_color) /\
  (tb_confidence box <= 50 -> box_color box = bgr_red) /\
  (forall box', tb_confidence box' = tb_confidence box -> box_color box' = box_color box) /\
  (blue_of bgr_green = 0 /\ green_of bgr_green = 255 /\ red_of bgr_green = 0) /\
  (blue_of bgr_red = 0 /\ green_of bgr_red = 0 /\ red_of bgr_red = 255) /\
  (middle_color <> bgr_green /\ middle_color <> bgr_red) /\
  (forall (s : store) (r : loc) (a : ndarray), s !! r = Some a ->
     draw_box L r box s =
       match rectangle L a (tb_x box, tb_y box)
               (tb_x box + tb_width box, tb_y box + tb_height box) (box_color box) 2 with
       | Raise e => (Raise e, s)
       | Ok a1 =>
           match putText L a1 (box_label box) (tb_x box, tb_y box - 5) 0.5%float
                   (box_color box) 1 with
           | Raise e => (Raise e, <[r:=a1]> s)
           | Ok a2 => (Ok tt, <[r:=a2]> (<[r:=a1]> s))
           end
       end).
Proof.
  split; [|split; [|split; [|split; [|split; [|split; [|split]]]]]].
  - unfold box_color. intros H.
    destruct (70 <? tb_confidence box) eqn:E; [reflexivity | lia].
  - unfold box_color. intros [H1 H2].
    destruct (70 <? tb_confidence box) eqn:E; [lia|].
    destruct (50 <? tb_confidence box) eqn:E'; [reflexivity | lia].
  - unfold box_color. intros H.
    destruct (70 <? tb_confidence box) eqn:E; [lia|].
    destruct (50 <? tb_confidence box) eqn:E'; [lia | reflexivity].
  - intros box' Heq. unfold box_color. rewrite Heq. reflexivity.
  - repeat split.
  - repeat split.
  - split; discriminate.
  - intros s r a Hr. apply (draw_box_eq L s r a box Hr).
Qed.

(** ** The endpoint (C1, C6) *)

(** C1 (the code departs from the claim): when the decoder yields no
    image, the [HTTPException] with status 400 is raised inside the
    [try] block, caught by its [except Exception] and replaced: the
    endpoint answers 500 with a detail that starts with
    "Processing error: ", not 400 with "Invalid image file". *)
Theorem C1_undecodable_upload_answers_500 (L : libs) (contents : bytes) :
  imdecode L contents = Ok None ->
  process_ocr L contents
    = Raise (HTTPException 500 (lit "Processing error: " ++ exn_str L invalid_image)) /\
  http_status (process_ocr L contents) = 500 /\
  http_detail (process_ocr L contents)
    = Some (lit "Processing error: " ++ exn_str L invalid_image).
Proof.
  intros Hdec. unfold process_ocr. rewrite Hdec. cbn [bind try_except].
  repeat split.
Qed.

(** The bytes of "not an image" on the stand-in libraries. *)
Lemma C1_undecodable_upload_witness :
  let contents := [Byte.x6e; Byte.x6f; Byte.x74; Byte.x20; Byte.x61; Byte.x6e;
                   Byte.x20; Byte.x69; Byte.x6d; Byte.x61; Byte.x67; Byte.x65] in
  process_ocr toy contents
    = Raise (HTTPException 500 (lit "Processing error: 400: Invalid image file")) /\
  http_status (process_ocr toy contents) = 500 /\
  http_detail (process_ocr toy contents)
    = Some (lit "Processing error: 400: Invalid image file").
Proof.
  intros contents.
  exact (C1_undecodable_upload_answers_500 toy contents eq_refl).
Defined.

(** C6, as stated, fails: for boxes of confidence 96, 60 and 44 the mean
    is 66.666..., the response reports 66.67. *)
Lemma C6_reported_average_is_rounded :
  exists resp, process_ocr toy [Byte.x01] = Ok resp /\
    map tb_confidence (text_boxes (rdata resp)) = [96; 60; 44] /\
    average_confidence (rdata resp) = PyFloat 0x1.0aae147ae147bp+6%float /\
    np_mean [96; 60; 44] = 0x1.0aaaaaaaaaaabp+6%float /\
    PrimFloat.eqb 0x1.0aae147ae147bp+6 (np_mean [96; 60; 44]) = false.
Proof.
  eexists. split; [vm_compute; reflexivity|].
  repeat split; vm_compute; reflexivity.
Qed.

(** C6 (amended): in every success response the reported
    average_confidence is [round(mean, 2)], the arithmetic mean of the
    confidences of the returned boxes rounded to two decimals, and the
    integer 0 when there is no box. *)
Theorem C6_average_confidence (L : libs) (contents : bytes) (resp : JSONResponse) :
  process_ocr L contents = Ok resp ->
  average_confidence (rdata resp) =
    match text_boxes (rdata resp) with
    | [] => PyInt 0
    | _ :: _ => PyFloat (np_round2 (np_mean (map tb_confidence (text_boxes (rdata resp)))))
    end /\
  total_boxes (rdata resp) = len (text_boxes (rdata resp)).
Proof.
  unfold process_ocr. intros H.
  apply (try_except_Ok _ (fun e => HTTPException 500 (lit "Processing error: " ++ exn_str L e)))
    in H.
  destruct (imdecode L contents) as [[image|]|e]; cbn [bind try_except] in H;
    try discriminate.
  destruct (detect_text_regions L image) as [boxes|e]; cbn [bind try_except] in H;
    try discriminate.
  destruct (extract_text L image) as [t|e]; cbn [bind try_except] in H;
    try discriminate.
  destruct (draw_bounding_boxes L 1%positive boxes _) as [drawn heap1].
  destruct (r <- drawn ;; (load r heap1).1) as [img|e]; cbn [bind try_except] in H;
    try discriminate.
  destruct (imencode_jpg L img) as [buf|e]; cbn [bind try_except] in H;
    try discriminate.
  injection H as <-. cbn [rdata text_boxes average_confidence total_boxes].
  split; [|reflexivity].
  destruct boxes; reflexivity.
Qed.

(** On the stand-in libraries: three boxes, reported average 66.67. *)
Lemma C6_average_confidence_witness :
  exists resp, process_ocr toy [Byte.x01] = Ok resp /\
    average_confidence (rdata resp) =
      match text_boxes (rdata resp) with
      | [] => PyInt 0
      | _ :: _ => PyFloat (np_round2 (np_mean (map tb_confidence (text_boxes (rdata resp)))))
      end /\
    total_boxes (rdata resp) = len (text_boxes (rdata resp)).
Proof.
  destruct (process_ocr toy [Byte.x01]) as [resp|e] eqn:E.
  - exists resp. split; [reflexivity|].
    exact (C6_average_confidence toy [Byte.x01] resp E).
  - exfalso. vm_compute in E. discriminate E.
Defined.

(** ** Preprocessing (C2, C5, C10) *)

Section Preprocess.

Context (L : libs).

Lemma preprocess_image_eq image :
  preprocess_image L image =
    (gray <- cvtColor_BGR2GRAY L image ;;
     hw <- unpack2 (shape gray) ;;
     gray' <- upscale L gray hw.1 hw.2 ;;
     finish L gray').
Proof.
  unfold preprocess_image, upscale, finish.
  destruct (cvtColor_BGR2GRAY L image) as [gray|e]; [|reflexivity].
  cbn [bind]. destruct (unpack2 (shape gray)) as [[h w]|e]; reflexivity.
Qed.

Lemma preprocess_via_enhanced image :
  preprocess_image L image =
    (contrast <- enhanced L image ;;
     adaptive <- adaptiveThreshold_gaussian L contrast 255 11 2 ;;
     blur <- GaussianBlur L contrast (5, 5) 0 ;;
     otsu <- threshold_otsu L blur 0 255 ;;
     if count_zero adaptive <? count_zero otsu then Ok otsu else Ok adaptive).
Proof.
  unfold preprocess_image, enhanced.
  destruct (cvtColor_BGR2GRAY L image) as [gray|e]; [|reflexivity].
  cbn [bind]. destruct (unpack2 (shape gray)) as [[h w]|e]; [|reflexivity].
  cbn [bind].
  destruct (if w <? 2000 then _ else _) as [gray'|e]; [|reflexivity].
  cbn [bind].
  destruct (fastNlMeansDenoising L gray' 10 7 21) as [den|e]; reflexivity.
Qed.

Hypothesis laws : cv_laws L.

Lemma finish_shape gray h w :
  shape gray = [h; w] -> 0 < h -> 0 < w ->
  exists out, finish L gray = Ok out /\ shape out = [h; w].
Proof.
  intros Hs Hh Hw. unfold finish.
  destruct (law_denoise L laws gray h w Hs Hh Hw) as (den & -> & Hden). cbn [bind].
  destruct (law_clahe L laws den h w Hden Hh Hw) as (con & -> & Hcon). cbn [bind].
  destruct (law_adaptive L laws con h w Hcon Hh Hw) as (ada & -> & Hada). cbn [bind].
  destruct (law_blur L laws con h w Hcon Hh Hw) as (blu & -> & Hblu). cbn [bind].
  destruct (law_otsu L laws blu h w Hblu Hh Hw) as (ots & -> & Hots). cbn [bind].
  destruct (count_zero ada <? count_zero ots); eauto.
Qed.

End Preprocess.

(** C5: with [adaptive] and [otsu] the two binarizations of the enhanced
    image, [preprocess_image] returns [otsu] when it has strictly more
    zero pixels than [adaptive] and [adaptive] otherwise, so also on a
    tie; when the two images differ it returns [otsu] exactly when its
    count is strictly greater. *)
Theorem C5_more_black_pixels_wins (L : libs)
    (image contrast adaptive blur otsu : ndarray) :
  enhanced L image = Ok contrast ->
  adaptiveThreshold_gaussian L contrast 255 11 2 = Ok adaptive ->
  GaussianBlur L contrast (5, 5) 0 = Ok blur ->
  threshold_otsu L blur 0 255 = Ok otsu ->
  exists out, preprocess_image L image = Ok out /\
    (count_zero adaptive < count_zero otsu -> out = otsu) /\
    (count_zero otsu = count_zero adaptive -> out = adaptive) /\
    (count_zero otsu < count_zero adaptive -> out = adaptive) /\
    (otsu <> adaptive -> (out = otsu <-> count_zero adaptive < count_zero otsu)).
Proof.
  intros He Ha Hb Ho. rewrite preprocess_via_enhanced.
  rewrite He. cbn [bind]. rewrite Ha. cbn [bind]. rewrite Hb. cbn [bind].
  rewrite Ho. cbn [bind].
  destruct (count_zero adaptive <? count_zero otsu) eqn:E; eexists;
    (split; [reflexivity|]); repeat split; intros; try lia; try reflexivity;
    try congruence.
Qed.

(** On the stand-in libraries the Otsu image of the wide image is all
    black and the adaptive one all white: Otsu is returned. *)
Lemma C5_more_black_pixels_witness :
  let contrast := mk_ndarray [1; 2000] (List.repeat 150 (Z.to_nat 2000)) in
  let adaptive := binarize 128 contrast in
  let otsu := binarize 200 contrast in
  count_zero adaptive = 0 /\ count_zero otsu = 2000 /\
  exists out, preprocess_image toy wide_image = Ok out /\
    (count_zero adaptive < count_zero otsu -> out = otsu) /\
    (count_zero otsu = count_zero adaptive -> out = adaptive) /\
    (count_zero otsu < count_zero adaptive -> out = adaptive) /\
    (otsu <> adaptive -> (out = otsu <-> count_zero adaptive < count_zero otsu)).
Proof.
  intros contrast adaptive otsu.
  split; [vm_compute; reflexivity|]. split; [vm_compute; reflexivity|].
  apply (C5_more_black_pixels_wins toy wide_image contrast adaptive contrast otsu);
    vm_compute; reflexivity.
Defined.

(** A tie: both binarizations of a dark image are all black and the
    adaptive one is returned. *)
Example preprocess_tie :
  let small := mk_ndarray [1; 2000; 3] (List.repeat 10 (Z.to_nat 6000)) in
  rmap count_zero (preprocess_image toy small) = Ok 2000 /\
  preprocess_image toy small
    = Ok (binarize 128 (mk_ndarray [1; 2000] (List.repeat 10 (Z.to_nat 2000)))).
Proof. split; vm_compute; reflexivity. Qed.

(** C10: a decoded colour image at least 2000 pixels wide is not
    resized: the result has the height and width of its grayscale, and
    is the same whatever the resize routine is. *)
Theorem C10_wide_image_not_resized (L : libs) (image : ndarray) (h w : Z) :
  cv_laws L ->
  shape image = [h; w; 3] -> 0 < h -> 2000 <= w ->
  exists gray out,
    cvtColor_BGR2GRAY L image = Ok gray /\
    preprocess_image L image = Ok out /\
    shape out = shape gray /\ shape out = [h; w] /\
    forall f, preprocess_image (set_resize L f) image = Ok out.
Proof.
  intros laws Hs Hh Hw.
  destruct (law_cvtColor L laws image h w Hs Hh ltac:(lia)) as (gray & Hg & Hgs).
  destruct (finish_shape L laws gray h w Hgs Hh ltac:(lia)) as (out & Hout & Hos).
  assert (Hup : forall L', upscale L' gray h w = Ok gray).
  { intros L'. unfold upscale. destruct (w <? 2000) eqn:E; [lia|reflexivity]. }
  exists gray, out. split; [exact Hg|].
  split; [|split; [congruence|split; [exact Hos|]]].
  - rewrite preprocess_image_eq, Hg. cbn [bind]. rewrite Hgs. cbn [unpack2 bind fst snd].
    rewrite Hup. exact Hout.
  - intros f. rewrite preprocess_image_eq.
    change (cvtColor_BGR2GRAY (set_resize L f) image) with (cvtColor_BGR2GRAY L image).
    rewrite Hg. cbn [bind]. rewrite Hgs. cbn [unpack2 bind fst snd].
    rewrite Hup. exact Hout.
Qed.

(** On the stand-in libraries the laws hold. *)
Lemma toy_laws : cv_laws toy.
Proof.
  constructor.
  - intros img h w Hs Hh Hw. cbn [cvtColor_BGR2GRAY toy]. unfold toy_cvtColor.
    rewrite Hs.
    destruct (0 <? h) eqn:E1; [|lia]. destruct (0 <? w) eqn:E2; [|lia].
    cbn [andb]. eexists. split; reflexivity.
  - intros g h w nw nh _ _ _ Hnw Hnh. cbn [resize_cubic toy toy_resize].
    destruct (0 <? nw) eqn:E1; [|lia]. destruct (0 <? nh) eqn:E2; [|lia].
    cbn [andb]. eexists. split; reflexivity.
  - intros g h w Hs _ _. exists g. split; [reflexivity|exact Hs].
  - intros g h w Hs _ _. exists g. split; [reflexivity|exact Hs].
  - intros g h w Hs _ _. eexists. split; [reflexivity|exact Hs].
  - intros g h w Hs _ _. exists g. split; [reflexivity|exact Hs].
  - intros g h w Hs _ _. eexists. split; [reflexivity|exact Hs].
Qed.

(** The wide image of the stand-in libraries is returned with its own
    height and width. *)
Lemma C10_wide_image_witness :
  exists gray out,
    cvtColor_BGR2GRAY toy wide_image = Ok gray /\
    preprocess_image toy wide_image = Ok out /\
    shape out = shape gray /\ shape out = [1; 2000] /\
    forall f, preprocess_image (set_resize toy f) wide_image = Ok out.
Proof.
  apply (C10_wide_image_not_resized toy wide_image 1 2000 toy_laws);
    [reflexivity | lia | lia].
Defined.

(** ** Binary64 rounding, from its specification

    What the upscaling needs of [float(h) * scale]: it is finite and
    truncates to a positive integer. *)

Section FloatFacts.

Lemma digits2_size p : digits2_pos p = Pos.size p.
Proof. induction p; simpl; congruence. Qed.

Lemma digits2_bounds p :
  2 ^ (Zpos (digits2_pos p) - 1) <= Zpos p < 2 ^ Zpos (digits2_pos p).
Proof.
  rewrite digits2_size. split.
  - pose proof (Pos.size_le p) as H.
    assert (Hs: (2 ^ Pos.size p <= p~0)%positive) by exact H.
    apply Pos2Z.pos_le_pos in Hs. rewrite Pos2Z.inj_pow in Hs.
    replace (Zpos (Pos.size p)) with (Z.succ (Zpos (Pos.size p) - 1)) in Hs by lia.
    rewrite Z.pow_succ_r in Hs by lia. lia.
  - pose proof (Pos.size_gt p) as H.
    apply Pos2Z.pos_lt_pos in H. rewrite Pos2Z.inj_pow in H. exact H.
Qed.

Lemma digits2_unique p d : 2 ^ (d - 1) <= Zpos p < 2 ^ d -> Zpos (digits2_pos p) = d.
Proof.
  intros [H1 H2]. pose proof (digits2_bounds p) as [H3 H4].
  set (D := Zpos (digits2_pos p)) in *.
  assert (0 < D) by (unfold D; lia).
  destruct (Z.lt_trichotomy D d) as [Hlt|[Heq|Hgt]]; [|exact Heq|].
  - exfalso. assert (2 ^ D <= 2 ^ (d - 1)) by (apply Z.pow_le_mono_r; lia). lia.
  - exfalso. assert (0 <= d \/ d < 0) as [Hd|Hd] by lia.
    + assert (2 ^ d <= 2 ^ (D - 1)) by (apply Z.pow_le_mono_r; lia). lia.
    + rewrite (Z.pow_neg_r 2 d) in H2 by lia. lia.
Qed.

Lemma digits2_iter_xO p k :
  Zpos (digits2_pos (Pos.iter xO p k)) = Zpos (digits2_pos p) + Zpos k.
Proof.
  revert p. induction k using Pos.peano_ind; intros p.
  - simpl. lia.
  - rewrite Pos.iter_succ. simpl. rewrite Pos2Z.inj_succ. rewrite IHk. lia.
Qed.

(** One step of the right shift halves the mantissa. *)
Lemma shr_1_m mrs :
  0 <= shr_m mrs -> shr_m (shr_1 mrs) = shr_m mrs / 2 /\ 0 <= shr_m (shr_1 mrs).
Proof.
  destruct mrs as [m r s]. cbn [shr_m]. intros Hm.
  destruct m as [|[p|p|]|p]; cbn [shr_1 shr_m]; try lia.
  - split; [reflexivity|lia].
  - split; [|lia]. rewrite Pos2Z.inj_xI. apply Z.div_unique with (r := 1); lia.
  - split; [|lia]. rewrite Pos2Z.inj_xO. apply Z.div_unique with (r := 0); lia.
  - split; [reflexivity|lia].
Qed.

Lemma iter_shr_m n : forall mrs, 0 <= shr_m mrs ->
  shr_m (SpecFloat.iter_pos shr_1 n mrs) = shr_m mrs / 2 ^ Zpos n /\
  0 <= shr_m (SpecFloat.iter_pos shr_1 n mrs).
Proof.
  induction n as [n IH|n IH|]; intros mrs Hm; simpl SpecFloat.iter_pos.
  - destruct (shr_1_m mrs Hm) as [E1 P1].
    destruct (IH _ P1) as [E2 P2]. destruct (IH _ P2) as [E3 P3].
    split; [|exact P3]. rewrite E3, E2, E1.
    assert (0 < 2 ^ Zpos n) by (apply Z.pow_pos_nonneg; lia).
    rewrite !Z.div_div by lia. f_equal.
    rewrite (Pos2Z.inj_xI n).
    replace (2 * Zpos n + 1) with (1 + Zpos n + Zpos n) by lia.
    rewrite !Z.pow_add_r by lia. lia.
  - destruct (IH _ Hm) as [E2 P2]. destruct (IH _ P2) as [E3 P3].
    split; [|exact P3]. rewrite E3, E2.
    assert (0 < 2 ^ Zpos n) by (apply Z.pow_pos_nonneg; lia).
    rewrite !Z.div_div by lia. f_equal.
    rewrite (Pos2Z.inj_xO n). replace (2 * Zpos n) with (Zpos n + Zpos n) by lia.
    rewrite !Z.pow_add_r by lia. lia.
  - destruct (shr_1_m mrs Hm) as [E1 P1]. split; [|exact P1]. rewrite E1. reflexivity.
Qed.

(** A mantissa of 53 digits within the exponent range is not rounded. *)
Lemma round_aux_exact m e :
  Zpos (digits2_pos m) = 53 -> -1074 <= e <= 971 ->
  binary_round_aux 53 1024 false (Zpos m) e loc_Exact = S754_finite false m e.
Proof.
  intros Hd He. unfold binary_round_aux, shr_fexp.
  cbn [Zdigits2 shr_record_of_loc]. rewrite Hd.
  assert (Hf : fexp 53 1024 (53 + e) - e = 0).
  { unfold fexp, SpecFloat.emin. lia. }
  rewrite Hf. cbn [shr loc_of_shr_record shr_m round_nearest_even Zdigits2 shr_record_of_loc].
  rewrite Hd, Hf. cbn [shr shr_m].
  destruct (e <=? 1024 - 53) eqn:E; [reflexivity|lia].
Qed.

Lemma round_nearest_even_cases m l :
  round_nearest_even m l = m \/ round_nearest_even m l = m + 1.
Proof.
  unfold round_nearest_even. destruct l as [|[| |]]; auto.
  destruct (Z.even m); auto.
Qed.

(** Rounding a longer positive mantissa keeps 53 digits of it. *)
Lemma round_aux_long M E :
  let D := Zpos (digits2_pos M) in
  54 <= D -> -1074 <= D + E - 53 -> D + E - 52 <= 971 ->
  exists m e,
    binary_round_aux 53 1024 false (Zpos M) E loc_Exact = S754_finite false m e /\
    2 ^ 52 <= Zpos m < 2 ^ 53 /\ D + E - 53 <= e <= D + E - 52.
Proof.
  intros D HD Hlo Hhi.
  pose proof (digits2_bounds M) as [HM1 HM2]. fold D in HM1, HM2.
  unfold binary_round_aux. unfold shr_fexp at 1.
  cbn [Zdigits2 shr_record_of_loc]. fold D.
  assert (Hf : fexp 53 1024 (D + E) - E = D - 53) by (unfold fexp, SpecFloat.emin; lia).
  rewrite Hf.
  destruct (D - 53) as [|n|n] eqn:Hn; try lia.
  cbn [shr].
  destruct (iter_shr_m n {| shr_m := Zpos M; shr_r := false; shr_s := false |})
    as [Em Pm]; [cbn; lia|].
  cbn [shr_m] in Em.
  set (mrs' := SpecFloat.iter_pos shr_1 n _) in *.
  assert (Hm1 : 2 ^ 52 <= shr_m mrs' < 2 ^ 53).
  { rewrite Em.
    assert (Hpow : 2 ^ D = 2 ^ 53 * 2 ^ Zpos n).
    { rewrite <- Z.pow_add_r by lia. f_equal. lia. }
    assert (Hpow' : 2 ^ (D - 1) = 2 ^ 52 * 2 ^ Zpos n).
    { rewrite <- Z.pow_add_r by lia. f_equal. lia. }
    assert (0 < 2 ^ Zpos n) by (apply Z.pow_pos_nonneg; lia).
    split.
    - apply Z.div_le_lower_bound; lia.
    - apply Z.div_lt_upper_bound; lia. }
  set (m2 := round_nearest_even (shr_m mrs') (loc_of_shr_record mrs')).
  assert (Hm2 : 2 ^ 52 <= m2 <= 2 ^ 53).
  { destruct (round_nearest_even_cases (shr_m mrs') (loc_of_shr_record mrs')) as [H|H];
      unfold m2; rewrite H; lia. }
  destruct m2 as [|p2|p2] eqn:Hp2; try lia.
  assert (Hcase : Zpos p2 < 2 ^ 53 \/ Zpos p2 = 2 ^ 53) by lia.
  destruct Hcase as [Hlt|Heq].
  - assert (Hd2 : Zpos (digits2_pos p2) = 53) by (apply digits2_unique; lia).
    unfold shr_fexp. cbn [Zdigits2 shr_record_of_loc]. rewrite Hd2.
    assert (Hf2 : fexp 53 1024 (53 + (E + Zpos n)) - (E + Zpos n) = 0)
      by (unfold fexp, SpecFloat.emin; lia).
    rewrite Hf2. cbn [shr shr_m].
    destruct (E + Zpos n <=? 1024 - 53) eqn:Hle; [|lia].
    exists p2, (E + Zpos n). split; [reflexivity|]. lia.
  - assert (Hp : p2 = (2 ^ 53)%positive).
    { apply Pos2Z.inj. rewrite Heq. reflexivity. }
    subst p2.
    unfold shr_fexp. cbn [Zdigits2 shr_record_of_loc].
    change (Zpos (digits2_pos (2 ^ 53))) with 54.
    assert (Hf2 : fexp 53 1024 (54 + (E + Zpos n)) - (E + Zpos n) = 1)
      by (unfold fexp, SpecFloat.emin; lia).
    rewrite Hf2. cbn [shr SpecFloat.iter_pos].
    change (shr_1 {| shr_m := Zpos (2 ^ 53); shr_r := false; shr_s := false |})
      with {| shr_m := Zpos (2 ^ 52); shr_r := false; shr_s := false |}.
    cbn [shr_m].
    destruct (E + Zpos n + 1 <=? 1024 - 53) eqn:Hle; [|lia].
    exists (2 ^ 52)%positive, (E + Zpos n + 1). split; [reflexivity|].
    split; [|lia]. change (Zpos (2 ^ 52)) with (2 ^ 52). lia.
Qed.

Lemma digits2_mul m1 m2 :
  Zpos (digits2_pos m1) = 53 -> Zpos (digits2_pos m2) = 53 ->
  105 <= Zpos (digits2_pos (m1 * m2)) <= 106.
Proof.
  intros H1 H2.
  pose proof (digits2_bounds m1) as [A1 A2]. pose proof (digits2_bounds m2) as [B1 B2].
  rewrite H1 in A1, A2. rewrite H2 in B1, B2.
  pose proof (digits2_bounds (m1 * m2)) as [C1 C2].
  rewrite Pos2Z.inj_mul in C1, C2.
  set (D := Zpos (digits2_pos (m1 * m2))) in *.
  assert (HD : 0 < D) by (unfold D; lia).
  assert (Hlow : 2 ^ 104 <= Zpos m1 * Zpos m2).
  { change (2 ^ 104) with (2 ^ 52 * 2 ^ 52). apply Z.mul_le_mono_nonneg; lia. }
  assert (Hup : Zpos m1 * Zpos m2 < 2 ^ 106).
  { change (2 ^ 106) with (2 ^ 53 * 2 ^ 53). apply Z.mul_lt_mono_nonneg; lia. }
  split.
  - destruct (Z_lt_le_dec D 105) as [Hlt|]; [|lia]. exfalso.
    assert (2 ^ D <= 2 ^ 104) by (apply Z.pow_le_mono_r; lia). lia.
  - destruct (Z_lt_le_dec 106 D) as [Hlt|]; [|lia]. exfalso.
    assert (2 ^ 106 <= 2 ^ (D - 1)) by (apply Z.pow_le_mono_r; lia). lia.
Qed.

(** [float(h)] for a positive [h] below [2^53]. *)
Lemma of_pos_SF h :
  0 < h < 2 ^ 53 ->
  exists m e,
    Prim2SF (PrimFloat.of_uint63 (Uint63.of_Z h)) = S754_finite false m e /\
    Zpos (digits2_pos m) = 53 /\ -52 <= e <= 0.
Proof.
  intros Hh. rewrite of_uint63_spec, Uint63.of_Z_spec.
  rewrite Z.mod_small by (change wB with (2 ^ 63); lia).
  destruct h as [|hp|hp]; try lia.
  cbn [binary_normalize]. unfold binary_round.
  pose proof (digits2_bounds hp) as [B1 B2].
  set (d := Zpos (digits2_pos hp)) in *.
  assert (Hd : 0 < d <= 53).
  { split; [unfold d; lia|].
    destruct (Z_lt_le_dec 53 d) as [Hlt|]; [|lia]. exfalso.
    assert (2 ^ 53 <= 2 ^ (d - 1)) by (apply Z.pow_le_mono_r; lia). lia. }
  assert (Hf : fexp prec emax (d + 0) = d - 53)
    by (unfold fexp, SpecFloat.emin, prec, emax; lia).
  rewrite Hf. unfold shl_align.
  destruct (d - 53 - 0) as [|k|k] eqn:Hk; try lia.
  - exists hp, 0. split; [|split; [fold d; lia|lia]].
    apply round_aux_exact; [fold d; lia|lia].
  - exists (Pos.iter xO hp k), (d - 53).
    assert (Hdig : Zpos (digits2_pos (Pos.iter xO hp k)) = 53).
    { rewrite digits2_iter_xO. fold d. lia. }
    split; [|split; [exact Hdig|lia]].
    apply round_aux_exact; [exact Hdig|lia].
Qed.

(** The product of a positive [int] and a float in [[1, 2^12)]
    truncates to a positive integer. *)
Lemma int_mul_float_positive h s ms es :
  0 < h < 2 ^ 53 ->
  Prim2SF s = S754_finite false ms es ->
  Zpos (digits2_pos ms) = 53 -> -52 <= es <= -41 ->
  exists n, int_of_float (int_mul_float h s) = Ok n /\ 1 <= n.
Proof.
  intros Hh Hs Hms Hes.
  destruct (of_pos_SF h Hh) as (mh & eh & Hf & Hmh & Heh).
  unfold int_of_float, int_mul_float, float_of_Z.
  destruct (h <? 0) eqn:Hneg; [lia|].
  rewrite mul_spec, Hf, Hs. unfold SF64mul, prec, emax. cbn [SFmul xorb].
  pose proof (digits2_mul mh ms Hmh Hms) as HD.
  destruct (round_aux_long (mh * ms) (eh + es)) as (m & e & -> & Hm & He);
    [lia|lia|lia|].
  cbn [trunc_SF].
  destruct (0 <=? e) eqn:Hsign.
  - eexists. split; [reflexivity|].
    rewrite Z.shiftl_mul_pow2 by lia.
    assert (0 < 2 ^ e) by (apply Z.pow_pos_nonneg; lia). nia.
  - eexists. split; [reflexivity|].
    rewrite Z.shiftr_div_pow2 by lia.
    assert (0 < 2 ^ (- e)) by (apply Z.pow_pos_nonneg; lia).
    apply Z.div_le_lower_bound; [lia|].
    assert (2 ^ (- e) <= 2 ^ 52) by (apply Z.pow_le_mono_r; lia). lia.
Qed.

(** Every width from 1 to 1999 passes the test [scale_ok]. *)
Lemma scale_ok_all :
  List.forallb scale_ok (map Z.of_nat (seq 1 1999)) = true.
Proof. vm_compute. reflexivity. Qed.

Lemma scale_ok_width w : 0 < w < 2000 -> scale_ok w = true.
Proof.
  intros Hw. pose proof scale_ok_all as H.
  rewrite List.forallb_forall in H. apply H.
  apply List.in_map_iff. exists (Z.to_nat w). split; [lia|].
  apply List.in_seq. lia.
Qed.

End FloatFacts.

(** ** Upscaling (C2) *)

Section Upscale.

Context (L : libs) (laws : cv_laws L).

(** The new dimensions of an image narrower than 2000 pixels. *)
Lemma scaled_dimensions h w :
  0 < h < 2 ^ 31 -> 0 < w < 2000 ->
  exists scale nh nw,
    truediv 2000 w = Ok scale /\
    int_of_float (int_mul_float h scale) = Ok nh /\
    int_of_float (int_mul_float w scale) = Ok nw /\
    0 < nh /\ 1999 <= nw <= 2000.
Proof.
  intros Hh Hw. pose proof (scale_ok_width w Hw) as Hok. unfold scale_ok in Hok.
  set (scale := PrimFloat.div (float_of_Z 2000) (float_of_Z w)) in *.
  destruct (Prim2SF scale) as [| | |[|] ms es] eqn:Hsf; try discriminate.
  apply andb_prop in Hok as [Hok Hnw]. apply andb_prop in Hok as [Hok Hes2].
  apply andb_prop in Hok as [Hms Hes1].
  destruct (int_of_float (int_mul_float w scale)) as [nw|e] eqn:Hw'; [|discriminate].
  destruct (int_mul_float_positive h scale ms es) as (nh & Hnh & Hpos);
    [lia | exact Hsf | lia | lia |].
  exists scale, nh, nw. unfold truediv.
  destruct (w =? 0) eqn:Hz; [lia|].
  repeat split; try assumption; lia.
Qed.

Lemma upscale_shape gray h w :
  shape gray = [h; w] -> 0 < h < 2 ^ 31 -> 0 < w < 2 ^ 31 ->
  exists r nh nw,
    upscale L gray h w = Ok r /\ shape r = [nh; nw] /\ 0 < nh /\ 0 < nw /\
    (2000 <= w -> nh = h /\ nw = w) /\
    (w < 2000 -> exists scale,
       truediv 2000 w = Ok scale /\
       int_of_float (int_mul_float h scale) = Ok nh /\
       int_of_float (int_mul_float w scale) = Ok nw).
Proof.
  intros Hs Hh Hw. unfold upscale.
  destruct (w <? 2000) eqn:E.
  - destruct (scaled_dimensions h w Hh ltac:(lia))
      as (scale & nh & nw & Hsc & Hnh & Hnw & Hpos & Hrange).
    rewrite Hsc. cbn [bind]. rewrite Hnw. cbn [bind]. rewrite Hnh. cbn [bind].
    destruct (law_resize L laws gray h w nw nh Hs ltac:(lia) ltac:(lia)
                ltac:(lia) Hpos) as (r & Hr & Hrs).
    exists r, nh, nw. repeat split; try assumption; try lia.
    intros _. exists scale. auto.
  - exists gray, h, w. repeat split; try assumption; try lia.
Qed.

End Upscale.

Example scaled_height_1_3 :
  (s <- truediv 2000 3 ;; int_of_float (int_mul_float 1 s)) = Ok 666.
Proof. vm_compute. reflexivity. Qed.
Example scaled_width_19 :
  (s <- truediv 2000 19 ;; int_of_float (int_mul_float 19 s)) = Ok 1999.
Proof. vm_compute. reflexivity. Qed.
Example scaled_width_3 :
  (s <- truediv 2000 3 ;; int_of_float (int_mul_float 3 s)) = Ok 2000.
Proof. vm_compute. reflexivity. Qed.

(** C2, as stated, fails twice.  A 3 pixel wide, 1 pixel high image
    comes out 666 pixels high, where 2000/3 rounded to the nearest
    integer is 667: the new dimensions are truncated.  A 19 pixel wide
    image comes out 1999 pixels wide, below 2000: in binary64
    [19 * (2000 / 19)] is just under 2000 and is truncated too. *)
Lemma C2_truncated_not_rounded :
  rmap shape (preprocess_image toy small_image) = Ok [666; 2000] /\
  nearest_scaled 1 3 = 667 /\
  rmap shape (preprocess_image toy narrow_image) = Ok [105; 1999] /\
  1999 < 2000.
Proof.
  split; [vm_compute; reflexivity|].
  split; [vm_compute; reflexivity|].
  split; [vm_compute; reflexivity|lia].
Qed.

(** C2 (amended): for every decoded colour image [preprocess_image]
    returns a single-channel image (a two-dimensional array).  An image
    at least 2000 pixels wide keeps its height and width.  For a
    narrower one both dimensions are multiplied, in binary64, by the
    same factor [2000 / width] and each product is truncated toward
    zero by [int], not rounded to the nearest integer. *)
Theorem C2_upscale_truncates (L : libs) (image : ndarray) (h w : Z) :
  cv_laws L -> decoded image h w ->
  exists out nh nw,
    preprocess_image L image = Ok out /\ shape out = [nh; nw] /\
    0 < nh /\ 0 < nw /\
    (2000 <= w -> nh = h /\ nw = w) /\
    (w < 2000 -> exists scale,
       truediv 2000 w = Ok scale /\
       int_of_float (int_mul_float h scale) = Ok nh /\
       int_of_float (int_mul_float w scale) = Ok nw).
Proof.
  intros laws (Hs & Hh & Hw).
  destruct (law_cvtColor L laws image h w Hs ltac:(lia) ltac:(lia)) as (gray & Hg & Hgs).
  destruct (upscale_shape L laws gray h w Hgs Hh Hw)
    as (r & nh & nw & Hup & Hrs & Hnh & Hnw & Hwide & Hnarrow).
  destruct (finish_shape L laws r nh nw Hrs Hnh Hnw) as (out & Hout & Hos).
  exists out, nh, nw.
  split; [|split; [exact Hos|split; [exact Hnh|split; [exact Hnw|split; assumption]]]].
  rewrite preprocess_image_eq, Hg. cbn [bind]. rewrite Hgs. cbn [unpack2 bind fst snd].
  rewrite Hup. cbn [bind]. exact Hout.
Qed.

(** The 1 by 3 image of the stand-in libraries comes out 666 by 2000. *)
Lemma C2_upscale_witness :
  exists out nh nw,
    preprocess_image toy small_image = Ok out /\ shape out = [nh; nw] /\
    0 < nh /\ 0 < nw /\
    (2000 <= 3 -> nh = 1 /\ nw = 3) /\
    (3 < 2000 -> exists scale,
       truediv 2000 3 = Ok scale /\
       int_of_float (int_mul_float 1 scale) = Ok nh /\
       int_of_float (int_mul_float 3 scale) = Ok nw).
Proof.
  apply (C2_upscale_truncates toy small_image 1 3 toy_laws).
  unfold decoded. split; [reflexivity|]. lia.
Defined.

(** * Further properties of [main.py] *)

(** ** The endpoint as a composition of its stages *)

Section Endpoint.

Context (L : libs).

(** The array [process_ocr] encodes is the decoded image with the boxes
    drawn on a copy. *)
Lemma annotated_eq (image : ndarray) (boxes : list TextBox) drawn heap1 :
  draw_bounding_boxes L 1%positive boxes {[ 1%positive := image ]} = (drawn, heap1) ->
  (r <- drawn ;; (load r heap1).1) = drawn_on L image boxes.
Proof.
  intros H.
  rewrite (draw_bounding_boxes_eq L _ 1%positive image boxes (lookup_singleton_eq _ _)) in H.
  set (s0 := ({[ 1%positive := image ]} : store)) in *.
  set (r0 := fresh (dom s0)) in *.
  destruct (draw_boxes L r0 boxes (<[r0:=image]> s0)) as [res s'] eqn:E.
  destruct (draw_boxes_frame L boxes (<[r0:=image]> s0) r0 image res s'
              (lookup_insert_eq _ _ _) E) as [_ Hres].
  cbn [fst snd] in H. injection H as <- <-.
  destruct res as [u|e].
  - destruct Hres as (out & Hout & Hlook). cbn [bind]. unfold load. rewrite Hlook.
    cbn [fst]. symmetry. exact Hout.
  - cbn [bind]. symmetry. exact Hres.
Qed.

(** [process_ocr] as the sequence of its stages. *)
Lemma process_ocr_eq (contents : bytes) :
  process_ocr L contents =
    try_except
      (decoded <- imdecode L contents ;;
       match decoded with
       | None => Raise invalid_image
       | Some image =>
           boxes <- detect_text_regions L image ;;
           extracted_text <- extract_text L image ;;
           image_with_boxes <- drawn_on L image boxes ;;
           buffer <- imencode_jpg L image_with_boxes ;;
           Ok (success_response L boxes extracted_text buffer)
       end)
      (fun e => Raise (HTTPException 500 (lit "Processing error: " ++ exn_str L e))).
Proof.
  unfold process_ocr. f_equal.
  destruct (imdecode L contents) as [[image|]|e]; cbn [bind]; try reflexivity.
  destruct (detect_text_regions L image) as [boxes|e]; cbn [bind]; [|reflexivity].
  destruct (extract_text L image) as [t|e]; cbn [bind]; [|reflexivity].
  destruct (draw_bounding_boxes L 1%positive boxes _) as [drawn heap1] eqn:E.
  rewrite (annotated_eq image boxes drawn heap1 E).
  destruct (drawn_on L image boxes) as [img|e]; cbn [bind]; [|reflexivity].
  destruct (imencode_jpg L img) as [buf|e]; reflexivity.
Qed.



End Endpoint.


(** On the stand-in libraries: an empty upload is answered 500 with the
    text of the decoder's exception, and an engine that ends the
    interpreter is not answered by the handler at all. *)
Example process_ocr_empty_upload :
  process_ocr toy [] = Raise (HTTPException 500 (lit "Processing error: cv2.error")).
Proof. vm_compute. reflexivity. Qed.

Example process_ocr_engine_exit :
  process_ocr toy_exit_engine [Byte.x01] = Raise engine_exit.
Proof. vm_compute. reflexivity. Qed.



(** ** Degrading and failing *)



(** X8: a failure of preprocessing is not degraded.  Both recognizer
    functions call [preprocess_image] before their [try] block, so its
    exception leaves them as it is; when it is an [Exception] the
    endpoint answers 500 with that exception's text, and otherwise it
    leaves the endpoint as well. *)
Theorem preprocessing_failure_answers_500 (L : libs) (contents : bytes)
    (image : ndarray) (e : exn) :
  imdecode L contents = Ok (Some image) ->
  preprocess_image L image = Raise e ->
  detect_text_regions L image = Raise e /\
  extract_text L image = Raise e /\
  process_ocr L contents
    = (if is_exception e
       then Raise (HTTPException 500 (lit "Processing error: " ++ exn_str L e))
       else Raise e) /\
  (is_exception e = true -> http_status (process_ocr L contents) = 500).
Proof.
  intros Hdec Hp.
  assert (Hdet : detect_text_regions L image = Raise e).
  { unfold detect_text_regions. rewrite Hp. reflexivity. }
  assert (Hext : extract_text L image = Raise e).
  { unfold extract_text. rewrite Hp. reflexivity. }
  assert (Hrun : process_ocr L contents
            = (if is_exception e
               then Raise (HTTPException 500 (lit "Processing error: " ++ exn_str L e))
               else Raise e)).
  { rewrite process_ocr_eq, Hdec. cbn [bind]. rewrite Hdet. reflexivity. }
  split; [exact Hdet|]. split; [exact Hext|]. split; [exact Hrun|].
  intros He. rewrite Hrun, He. reflexivity.
Qed.

(** A decoder that yields a grayscale array: the colour conversion
    raises and the request fails. *)
Lemma preprocessing_failure_witness :
  detect_text_regions toy_gray_upload (mk_ndarray [1; 3] [10; 150; 250]) = Raise cv_error /\
  extract_text toy_gray_upload (mk_ndarray [1; 3] [10; 150; 250]) = Raise cv_error /\
  process_ocr toy_gray_upload [Byte.x01]
    = Raise (HTTPException 500 (lit "Processing error: cv2.error")) /\
  http_status (process_ocr toy_gray_upload [Byte.x01]) = 500.
Proof.
  destruct (preprocessing_failure_answers_500 toy_gray_upload [Byte.x01]
              (mk_ndarray [1; 3] [10; 150; 250]) cv_error eq_refl eq_refl)
    as (H1 & H2 & H3 & H4).
  split; [exact H1|]. split; [exact H2|]. split; [exact H3|exact (H4 eq_refl)].
Defined.

(** X9: there is no partial result.  When a drawing call raises while
    the boxes are drawn on the copy, the text and the boxes already
    computed are dropped: for an [Exception] the endpoint answers 500
    with that exception's text, and any other exception leaves the
    endpoint. *)
Theorem drawing_failure_answers_500 (L : libs) (contents : bytes)
    (image : ndarray) (boxes : list TextBox) (extracted_text : pystr) (e : exn) :
  imdecode L contents = Ok (Some image) ->
  detect_text_regions L image = Ok boxes ->
  extract_text L image = Ok extracted_text ->
  drawn_on L image boxes = Raise e ->
  boxes <> [] /\
  process_ocr L contents
    = (if is_exception e
       then Raise (HTTPException 500 (lit "Processing error: " ++ exn_str L e))
       else Raise e) /\
  (is_exception e = true -> http_status (process_ocr L contents) = 500).
Proof.
  intros Hdec Hb Ht Hd.
  assert (Hrun : process_ocr L contents
            = (if is_exception e
               then Raise (HTTPException 500 (lit "Processing error: " ++ exn_str L e))
               else Raise e)).
  { rewrite process_ocr_eq, Hdec. cbn [bind]. rewrite Hb. cbn [bind].
    rewrite Ht. cbn [bind]. rewrite Hd. reflexivity. }
  split; [|split; [exact Hrun|]].
  - intros ->. discriminate Hd.
  - intros He. rewrite Hrun, He. reflexivity.
Qed.

(** Stand-in libraries whose [putText] raises: the three boxes and the
    text are lost. *)
Lemma drawing_failure_witness :
  rmap (map tb_confidence) (detect_text_regions toy_no_font wide_image) = Ok [96; 60; 44] /\
  extract_text toy_no_font wide_image = Ok (lit "Hello fine world") /\
  process_ocr toy_no_font [Byte.x01]
    = Raise (HTTPException 500 (lit "Processing error: cv2.error")) /\
  http_status (process_ocr toy_no_font [Byte.x01]) = 500.
Proof.
  split; [vm_compute; reflexivity|]. split; [vm_compute; reflexivity|].
  destruct (detect_text_regions toy_no_font wide_image) as [boxes|e] eqn:Hb;
    [|exfalso; vm_compute in Hb; discriminate Hb].
  assert (Ht : extract_text toy_no_font wide_image = Ok (lit "Hello fine world"))
    by (vm_compute; reflexivity).
  assert (Hd : drawn_on toy_no_font wide_image boxes = Raise cv_error)
    by (vm_compute in Hb; injection Hb as <-; vm_compute; reflexivity).
  destruct (drawing_failure_answers_500 toy_no_font [Byte.x01] wide_image boxes
              (lit "Hello fine world") cv_error eq_refl Hb Ht Hd) as (_ & H2 & H3).
  split; [exact H2|exact (H3 eq_refl)].
Defined.

(** ** What the recognizer hands on *)

Lemma strip_ends_clean s : starts_clean (rev (strip s)).
Proof.
  unfold strip, rstrip. rewrite rev_involutive. apply lstrip_starts_clean.
Qed.

Lemma fallback_clean :
  fallback_text <> [] /\ starts_clean fallback_text /\ starts_clean (rev fallback_text).
Proof. split; [discriminate|]. split; reflexivity. Qed.

Lemma strip_trimmed s : trimmed (strip s).
Proof.
  split; [apply strip_starts_clean|]. split; [apply strip_ends_clean|apply strip_idem].
Qed.

Lemma nil_trimmed : trimmed [].
Proof. repeat split. Qed.

(** What [extract_text] can return: nothing, or an engine output
    stripped. *)
Lemma extract_text_cases (L : libs) (image : ndarray) (t : pystr) :
  extract_text L image = Ok t -> t = [] \/ exists raw, t = strip raw.
Proof.
  unfold extract_text. intros H. bind_inv H.
  destruct (image_to_string L v _ _) as [t1|e]; cbn [bind try_except] in H;
    [|destruct (is_exception e); [injection H as <-; left; reflexivity|discriminate]].
  destruct (image_to_string L v _ _) as [t2|e]; cbn [bind try_except] in H;
    [|destruct (is_exception e); [injection H as <-; left; reflexivity|discriminate]].
  destruct (len (strip t1) <? len (strip t2)); cbn [try_except] in H;
    injection H as <-; right; eauto.
Qed.

(** X7: whatever the engine writes, the text [extract_text] returns has
    no whitespace at its start or end (it may be empty). *)
Theorem extract_text_is_trimmed (L : libs) (image : ndarray) (t : pystr) :
  extract_text L image = Ok t -> trimmed t.
Proof.
  intros H. destruct (extract_text_cases L image t H) as [->|[raw ->]].
  - apply nil_trimmed.
  - apply strip_trimmed.
Qed.

(** The stand-in engine pads its output; the padding is gone. *)
Lemma extract_text_trimmed_witness :
  extract_text toy wide_image = Ok (lit "Hello fine world") /\
  trimmed (lit "Hello fine world").
Proof.
  assert (H : extract_text toy wide_image = Ok (lit "Hello fine world"))
    by (vm_compute; reflexivity).
  split; [exact H|]. exact (extract_text_is_trimmed toy wide_image _ H).
Defined.

Lemma detect_boxes_kept (L : libs) (image : ndarray) (boxes : list TextBox) :
  detect_text_regions L image = Ok boxes ->
  Forall (fun b => 30 < tb_confidence b /\ tb_text b <> [] /\ trimmed (tb_text b)) boxes.
Proof.
  intros H. pose proof H as H'. unfold detect_text_regions in H'. bind_inv H'.
  pose proof (detect_after_preprocess L image v Hv) as Hd.
  destruct (image_to_data L v _ _) as [d|e].
  - destruct Hd as (boxes' & Hb & Hk).
    rewrite H in Hb. injection Hb as <-.
    eapply Forall_impl; [exact Hk|].
    intros b (Hc & Hne & i & conf & raw & _ & _ & _ & Ht). simpl.
    split; [exact Hc|]. split; [exact Hne|]. rewrite Ht. apply strip_trimmed.
  - rewrite H in Hd. destruct (is_exception e); [|discriminate Hd].
    injection Hd as ->. constructor.
Qed.

(** X4: in every success response each box has confidence above 30 and
    a non-empty text without whitespace at either end, and the text of
    the response is never empty and has no whitespace at either end: it
    is what [extract_text] returned or, when that was empty, the
    fallback sentence. *)
Theorem success_response_is_clean (L : libs) (contents : bytes) (resp : JSONResponse) :
  process_ocr L contents = Ok resp ->
  Forall (fun b => 30 < tb_confidence b /\ tb_text b <> [] /\ trimmed (tb_text b))
         (text_boxes (rdata resp)) /\
  text (rdata resp) <> [] /\ trimmed (text (rdata resp)) /\
  success resp = true /\ rotation_angle (rdata resp) = 0.
Proof.
  rewrite process_ocr_eq. intros H.
  apply (try_except_Ok _
           (fun e => HTTPException 500 (lit "Processing error: " ++ exn_str L e))) in H.
  destruct (imdecode L contents) as [[image|]|e]; cbn [bind] in H;
    try discriminate.
  destruct (detect_text_regions L image) as [boxes|e] eqn:Hb; cbn [bind] in H;
    try discriminate.
  destruct (extract_text L image) as [t|e] eqn:Ht; cbn [bind] in H;
    try discriminate.
  destruct (drawn_on L image boxes) as [img|e]; cbn [bind] in H;
    try discriminate.
  destruct (imencode_jpg L img) as [buf|e]; cbn [bind] in H;
    try discriminate.
  injection H as <-. cbn [success_response rdata text_boxes text success rotation_angle].
  split; [exact (detect_boxes_kept L image boxes Hb)|].
  destruct t as [|c t']; cbn [truthy].
  - destruct fallback_clean as (F1 & F2 & F3).
    split; [exact F1|]. split; [|split; reflexivity].
    split; [exact F2|]. split; [exact F3|]. reflexivity.
  - split; [discriminate|]. split; [|split; reflexivity].
    destruct (extract_text_cases L image _ Ht) as [Hnil|[raw ->]];
      [discriminate Hnil|apply strip_trimmed].
Qed.

(** The response for the wide image on the stand-in libraries. *)
Lemma success_response_clean_witness :
  exists resp, process_ocr toy [Byte.x01] = Ok resp /\
    Forall (fun b => 30 < tb_confidence b /\ tb_text b <> [] /\ trimmed (tb_text b))
           (text_boxes (rdata resp)) /\
    text (rdata resp) <> [] /\ trimmed (text (rdata resp)) /\
    success resp = true /\ rotation_angle (rdata resp) = 0.
Proof.
  destruct (process_ocr toy [Byte.x01]) as [resp|e] eqn:E.
  - exists resp. split; [reflexivity|].
    exact (success_response_is_clean toy [Byte.x01] resp E).
  - exfalso. vm_compute in E. discriminate E.
Defined.

(** The same holds when the engine reports its confidences as numeric
    strings. *)
Example success_response_string_confidences :
  rmap (fun resp => map tb_confidence (text_boxes (rdata resp)))
       (process_ocr toy_str_cells [Byte.x01]) = Ok [96; 60; 44].
Proof. vm_compute. reflexivity. Qed.

(** ** Region detection on a well-formed and on a malformed table *)

Section Rows.

Context (L : libs) (d : ocr_dict).

Lemma lookup_map_mid {A B} (f : A -> B) (pre : list A) (r : A) (rest : list A) :
  map f (pre ++ r :: rest) !! length pre = Some (f r).
Proof. induction pre as [|a pre IH]; simpl; [reflexivity | exact IH]. Qed.

(** The loop body on a row of a table. *)
Lemma detect_step_row (pre : list word) (r : word) (rest : list word)
    (acc : list TextBox) :
  table d (pre ++ r :: rest) ->
  detect_step L d acc (length pre)
    = if keeps r
      then match float_of_int (w_conf r) with
           | Ok _ => Ok (acc ++ [box_of_word r])
           | Raise e => Raise e
           end
      else Ok acc.
Proof.
  intros (Ht & Hc & Hl & Htop & Hw & Hh).
  unfold detect_step, getitem, index, keeps.
  rewrite Hc, Ht, Hl, Htop, Hw, Hh. cbn [bind].
  rewrite !lookup_map_mid. cbn [bind py_int cell_strip].
  destruct (30 <? w_conf r); cbn [andb]; [|reflexivity].
  destruct (strip (w_text r)) as [|c t] eqn:Hs; cbn [truthy andb]; [reflexivity|].
  assert (Hlen : (0 <? len (c :: t)) = true).
  { apply Z.ltb_lt. unfold len. cbn [length]. lia. }
  rewrite Hlen. cbn [bind]. unfold box_of_word. rewrite Hs.
  destruct (float_of_int (w_conf r)); reflexivity.
Qed.

(** The loop over the rows of a table: it collects the box of every
    kept row, and raises when [float] does on the confidence of one. *)
Lemma for_each_rows (rows : list word) : table d rows ->
  forall rest pre acc, rows = pre ++ rest ->
    match for_each (detect_step L d) (seq (length pre) (length rest)) acc with
    | Ok res => List.forallb conf_fits (List.filter keeps rest) = true /\
                res = acc ++ map box_of_word (List.filter keeps rest)
    | Raise _ => List.forallb conf_fits (List.filter keeps rest) = false
    end.
Proof.
  intros Ht rest. induction rest as [|r rest IH]; intros pre acc Hrows.
  - simpl. rewrite app_nil_r. split; reflexivity.
  - cbn [length seq for_each]. subst rows.
    rewrite (detect_step_row pre r rest acc Ht). cbn [List.filter].
    replace (S (length pre)) with (length (pre ++ [r]))
      by (rewrite List.length_app; simpl; lia).
    destruct (keeps r).
    + cbn [List.forallb map]. unfold conf_fits at 1 3.
      destruct (float_of_int (w_conf r)) as [v|e]; cbn [bind andb]; [|reflexivity].
      specialize (IH (pre ++ [r]) (acc ++ [box_of_word r])
                     ltac:(rewrite <- app_assoc; reflexivity)).
      destruct (for_each _ _ _) as [res|e]; [|exact IH].
      destruct IH as [IH1 ->]. split; [exact IH1|].
      rewrite <- app_assoc. reflexivity.
    + cbn [bind]. exact (IH (pre ++ [r]) acc ltac:(rewrite <- app_assoc; reflexivity)).
Qed.

(** A row that makes the loop body raise does so whatever was
    collected before. *)
Lemma bad_confidence_raises (i : nat) (acc : list TextBox) :
  bad_confidence L d i -> exists e, detect_step L d acc i = Raise e.
Proof.
  intros Hbad. unfold detect_step, getitem, index.
  destruct (d !! "conf") as [ccol|] eqn:Hc; cbn [bind]; [|eauto].
  destruct (ccol !! i) as [c|] eqn:Hi; cbn [bind]; [|eauto].
  destruct (py_int L c) as [z|e] eqn:Hz; cbn [bind]; [|eauto].
  exfalso. exact (Hbad ccol c z Hc Hi Hz).
Qed.

Lemma for_each_raises (i : nat) (l : list nat) :
  In i l -> bad_confidence L d i ->
  forall acc, exists e, for_each (detect_step L d) l acc = Raise e.
Proof.
  intros Hin Hbad. induction l as [|j l IH]; intros acc; [destruct Hin|].
  cbn [for_each].
  destruct (detect_step L d acc j) as [acc'|e] eqn:Hstep; cbn [bind]; [|eauto].
  destruct Hin as [->|Hin]; [|exact (IH Hin acc')].
  destruct (bad_confidence_raises i acc Hbad) as [e He]. congruence.
Qed.

End Rows.

(** X5: when the engine's dictionary is a table of rows (six columns of
    equal length, text as strings and numbers as integers),
    [detect_text_regions] returns exactly the rows whose confidence is
    above 30 and whose text does not trim to the empty string, one box
    per such row, in the engine's order, with the trimmed text, the
    row's geometry and the [float] of its confidence (and no box at all
    should [float] overflow on one of them). *)
Theorem detect_returns_kept_rows (L : libs) (image processed : ndarray)
    (d : ocr_dict) (rows : list word) :
  preprocess_image L image = Ok processed ->
  image_to_data L processed psm3 eng = Ok d ->
  table d rows ->
  detect_text_regions L image = Ok (boxes_of_rows rows) /\
  (length (boxes_of_rows rows) <= length rows)%nat.
Proof.
  intros Hp Hd Ht. split.
  - unfold detect_text_regions. rewrite Hp. cbn [bind].
    unfold psm3, eng in Hd. rewrite Hd. cbn [bind].
    pose proof Ht as (Htext & _). unfold getitem. rewrite Htext. cbn [bind].
    rewrite List.length_map.
    pose proof (for_each_rows L d rows Ht rows [] [] eq_refl) as Hloop.
    cbn [length app] in Hloop. unfold boxes_of_rows.
    destruct (for_each _ _ _) as [res|e] eqn:E; cbn [try_except].
    + destruct Hloop as [-> ->]. reflexivity.
    + rewrite Hloop, (for_each_only L d _ [] e E). reflexivity.
  - unfold boxes_of_rows. destruct (List.forallb _ _); [|simpl; lia].
    rewrite List.length_map. apply List.filter_length_le.
Qed.

(** The six rows of the stand-in engine give three boxes. *)
Lemma detect_kept_rows_witness :
  detect_text_regions toy wide_image = Ok (boxes_of_rows toy_rows) /\
  (length (boxes_of_rows toy_rows) <= length toy_rows)%nat /\
  boxes_of_rows toy_rows =
    [mk_TextBox (lit "Hello") 10 20 50 18 96;
     mk_TextBox (lit "fine") 80 20 60 17 60;
     mk_TextBox (lit "world") 150 22 55 18 44].
Proof.
  assert (Ht : table toy_words toy_rows) by (repeat split).
  destruct (detect_returns_kept_rows toy wide_image
              (binarize 200 (mk_ndarray [1; 2000] (List.repeat 150 (Z.to_nat 2000))))
              toy_words toy_rows ltac:(vm_compute; reflexivity) eq_refl Ht) as [H1 H2].
  split; [exact H1|]. split; [exact H2|]. vm_compute. reflexivity.
Defined.

(** A kept row whose confidence no float can hold loses every box. *)
Example boxes_of_rows_overflow :
  boxes_of_rows [mk_word (lit "Hello") 96 10 20 50 18;
                 mk_word (lit "big") (2 ^ 1024) 0 0 1 1] = [].
Proof. vm_compute. reflexivity. Qed.

(** X6: one malformed row discards everything.  When the dictionary has
    no text or confidence column, or some row within the text column has
    no confidence that [int] accepts (the confidence column is shorter,
    or [int] raises on the cell, as on the string "n/a"), the loop
    raises inside the [try] block and [detect_text_regions] returns the
    empty list, also when earlier rows had qualified. *)
Theorem malformed_table_gives_no_box (L : libs) (image processed : ndarray)
    (d : ocr_dict) :
  preprocess_image L image = Ok processed ->
  image_to_data L processed psm3 eng = Ok d ->
  malformed L d ->
  detect_text_regions L image = Ok [].
Proof.
  intros Hp Hd Hm. unfold detect_text_regions. rewrite Hp. cbn [bind].
  unfold psm3, eng in Hd. rewrite Hd. cbn [bind]. unfold getitem at 1.
  destruct Hm as [Hno|[Hno|(tcol & i & Htext & Hi & Hbad)]].
  - rewrite Hno. reflexivity.
  - destruct (d !! "text") as [tcol|]; [|reflexivity]. cbn [bind].
    destruct tcol as [|c tcol]; [reflexivity|].
    destruct (for_each_raises L d 0%nat (seq 0 (length (c :: tcol))))
      with (acc := @nil TextBox) as [e He].
    + simpl. left. reflexivity.
    + intros ccol c0 z Hc. congruence.
    + rewrite He. cbn [try_except].
      rewrite (for_each_only L d _ [] e He). reflexivity.
  - rewrite Htext. cbn [bind].
    destruct (for_each_raises L d i (seq 0 (length tcol))) with (acc := @nil TextBox)
      as [e He].
    + apply List.in_seq. lia.
    + exact Hbad.
    + rewrite He. cbn [try_except].
      rewrite (for_each_only L d _ [] e He). reflexivity.
Qed.

(** The stand-in table with the confidence of its fourth row the string
    "n/a": the box of the second row, already collected, is lost. *)
Lemma malformed_table_witness :
  detect_text_regions toy_bad_cell wide_image = Ok [] /\
  malformed toy_bad_cell toy_bad_words.
Proof.
  assert (Hm : malformed toy_bad_cell toy_bad_words).
  { right. right.
    exists [CStr []; CStr (lit "Hello"); CStr (lit "   "); CStr (lit " fine ");
            CStr (lit "world"); CStr (lit "x")], 3%nat.
    split; [reflexivity|]. split; [simpl; lia|].
    intros ccol c z Hc Hi. vm_compute in Hc. injection Hc as <-.
    vm_compute in Hi. injection Hi as <-. vm_compute. discriminate. }
  split; [|exact Hm].
  apply (malformed_table_gives_no_box toy_bad_cell wide_image
           (binarize 200 (mk_ndarray [1; 2000] (List.repeat 150 (Z.to_nat 2000))))
           toy_bad_words); [vm_compute; reflexivity | reflexivity | exact Hm].
Defined.

(** ** The width after upscaling *)

(** X10: under the laws of the library, a decoded colour image narrower
    than 2000 pixels comes out of [preprocess_image] as a two-dimensional
    array 1999 or 2000 pixels wide, never less and never more, and at
    least one pixel high. *)
Theorem narrow_image_width_1999_or_2000 (L : libs) (image : ndarray) (h w : Z) :
  cv_laws L -> decoded image h w -> w < 2000 ->
  exists out nh nw,
    preprocess_image L image = Ok out /\ shape out = [nh; nw] /\
    (nw = 1999 \/ nw = 2000) /\ 0 < nh.
Proof.
  intros laws (Hs & Hh & Hw) Hnarrow.
  destruct (law_cvtColor L laws image h w Hs ltac:(lia) ltac:(lia)) as (gray & Hg & Hgs).
  destruct (scaled_dimensions h w Hh ltac:(lia))
    as (scale & nh & nw & Hsc & Hnh & Hnw & Hpos & Hrange).
  destruct (law_resize L laws gray h w nw nh Hgs ltac:(lia) ltac:(lia)
              ltac:(lia) Hpos) as (r & Hr & Hrs).
  destruct (finish_shape L laws r nh nw Hrs Hpos ltac:(lia)) as (out & Hout & Hos).
  exists out, nh, nw.
  split; [|split; [exact Hos|split; [lia|exact Hpos]]].
  rewrite preprocess_image_eq, Hg. cbn [bind]. rewrite Hgs. cbn [unpack2 bind fst snd].
  unfold upscale. destruct (w <? 2000) eqn:E; [|lia].
  rewrite Hsc. cbn [bind]. rewrite Hnw. cbn [bind]. rewrite Hnh. cbn [bind].
  rewrite Hr. cbn [bind]. exact Hout.
Qed.

(** The 19 pixel wide image of the stand-in libraries. *)
Lemma narrow_image_width_witness :
  exists out nh nw,
    preprocess_image toy narrow_image = Ok out /\ shape out = [nh; nw] /\
    (nw = 1999 \/ nw = 2000) /\ 0 < nh.
Proof.
  apply (narrow_image_width_1999_or_2000 toy narrow_image 1 19 toy_laws);
    [|lia].
  unfold decoded. split; [reflexivity|]. lia.
Defined.

(** ** The engine check *)

(** X11: [test_tesseract] answers from the outcome of the version
    call.  When it returns, the body has status "OK" and the version
    and no message; when it raises an [Exception], the body has status
    "ERROR" and the text of the exception and no version; in both cases
    the endpoint answers 200.  An exception that is not an [Exception],
    such as the [SystemExit] pytesseract raises on a version it cannot
    parse, is not caught and leaves [test_tesseract]. *)
Theorem test_tesseract_outcomes (L : libs) (get_version : result pystr) :
  match get_version with
  | Ok version =>
      exists body, test_tesseract L get_version = Ok body /\
        http_status (test_tesseract L get_version) = 200 /\
        body !! "status" = Some (lit "OK") /\
        body !! "tesseract_version" = Some version /\
        body !! "message" = None
  | Raise e =>
      if is_exception e then
        exists body, test_tesseract L get_version = Ok body /\
          http_status (test_tesseract L get_version) = 200 /\
          body !! "status" = Some (lit "ERROR") /\
          body !! "message" = Some (exn_str L e) /\
          body !! "tesseract_version" = None
      else test_tesseract L get_version = Raise e
  end.
Proof.
  unfold test_tesseract.
  destruct get_version as [version|e]; cbn [bind try_except http_status].
  - eexists. split; [reflexivity|]. split; [reflexivity|].
    repeat split; vm_compute; reflexivity.
  - destruct (is_exception e); [|reflexivity].
    eexists. split; [reflexivity|]. split; [reflexivity|].
    split; [|split].
    + apply lookup_insert_eq.
    + rewrite lookup_insert_ne by discriminate. apply lookup_singleton_eq.
    + rewrite lookup_insert_ne by discriminate. apply lookup_singleton_ne. discriminate.
Qed.

(** The version call ending the interpreter ends the endpoint too. *)
Example test_tesseract_exit :
  test_tesseract toy (Raise engine_exit) = Raise engine_exit.
Proof. reflexivity. Qed.
